(** * pffft.hpp: the C++ front end of the PFFFT engine

    A shallow embedding of [src/pffft.hpp]: the numeric-kind trait table
    [Types<T>], the four [Setup<T>] specialisations and the [Fft<T>] facade.

    Conventions.
    - C++ [int] and [size_t] values are integers of [Z], [int] of 32 bits
      and [size_t] of 64.  Where the code computes on them the result is
      reduced as the machine does: [2 * length] to 32 bits, two's
      complement (C++ leaves a signed overflow undefined; this is what
      the compiled code yields), an [int] converted to [size_t] and a
      product of [size_t] modulo [2^64].
      [length / 2] is C++ division, truncating towards zero ([Z.quot]).
    - Pointers are integers, [NULL] is [0]; [if (p)] reads [p <> NULL].
    - The engine ([pffft.h], [pffft_double.h]) is not part of the header.
      Its entry points are a black box that records every call and keeps
      the set of live setups and live aligned blocks.  Numeric results of
      the kernels are not modelled.
    - A member function that mutates the object is a function from the
      object's state to a computation returning the new state. *)

From Stdlib Require Import ZArith List Bool Lia.
From Stdlib Require Import Floats.SpecFloat.
From stdpp Require Import base option gmap.
Import ListNotations.
Local Open Scope Z_scope.

(** ** Numeric kinds and the trait table [Types<T>] *)

(** The template argument [T] of [Types<T>], [Setup<T>] and [Fft<T>]:
    [float], [std::complex<float>], [double], [std::complex<double>]. *)
Inductive Kind : Type :=
| Float
| ComplexFloat
| Double
| ComplexDouble.

(** The two engine libraries: [pffft_*] (single precision) and [pffftd_*]
    (double precision).  It doubles as [Types<T>::Scalar]. *)
Inductive ScalarKind : Type :=
| ScalarFloat
| ScalarDouble.

(** [enum { PFFFT_REAL, PFFFT_COMPLEX }] *)
Inductive pffft_transform_t : Type :=
| PFFFT_REAL
| PFFFT_COMPLEX.

(** [enum { PFFFT_FORWARD, PFFFT_BACKWARD }] *)
Inductive pffft_direction_t : Type :=
| PFFFT_FORWARD
| PFFFT_BACKWARD.

#[global] Instance Kind_eq_dec : EqDecision Kind.
Proof. solve_decision. Defined.
#[global] Instance ScalarKind_eq_dec : EqDecision ScalarKind.
Proof. solve_decision. Defined.
#[global] Instance pffft_transform_t_eq_dec : EqDecision pffft_transform_t.
Proof. solve_decision. Defined.
#[global] Instance pffft_direction_t_eq_dec : EqDecision pffft_direction_t.
Proof. solve_decision. Defined.

(** [typedef ... Scalar] of [Types<T>] *)
Definition Scalar (T : Kind) : ScalarKind :=
  match T with
  | Float => ScalarFloat
  | ComplexFloat => ScalarFloat
  | Double => ScalarDouble
  | ComplexDouble => ScalarDouble
  end.

(** [sizeof(float)] and [sizeof(double)] *)
Definition sizeof_scalar (s : ScalarKind) : Z :=
  match s with
  | ScalarFloat => 4
  | ScalarDouble => 8
  end.

Definition sizeof_Scalar (T : Kind) : Z := sizeof_scalar (Scalar T).

(** [sizeof(Complex)], with [Complex = std::complex<Scalar>]; the
    constructor of [Fft<T>] asserts statically that it is twice the scalar. *)
Definition sizeof_Complex (T : Kind) : Z := 2 * sizeof_Scalar T.

(** [sizeof(T)] *)
Definition sizeof_T (T : Kind) : Z :=
  match T with
  | Float => sizeof_scalar ScalarFloat
  | ComplexFloat => 2 * sizeof_scalar ScalarFloat
  | Double => sizeof_scalar ScalarDouble
  | ComplexDouble => 2 * sizeof_scalar ScalarDouble
  end.

(** [static bool isComplexTransform() { return sizeof(T) == sizeof(Complex); }] *)
Definition isComplexTransform (T : Kind) : bool :=
  sizeof_T T =? sizeof_Complex T.

(** [static bool isFloatScalar()], [static bool isDoubleScalar()] *)
Definition isFloatScalar (T : Kind) : bool :=
  sizeof_Scalar T =? sizeof_scalar ScalarFloat.
Definition isDoubleScalar (T : Kind) : bool :=
  sizeof_Scalar T =? sizeof_scalar ScalarDouble.

(** ** Pointers *)

Definition ptr : Type := Z.
Definition NULL : ptr := 0.

(** [if (p)] *)
Definition nonnull (p : ptr) : bool := negb (p =? NULL).

(** ** Machine integers *)

(** The range of a 32-bit [int]. *)
Definition INT_MAX : Z := 2147483647.
Definition in_int (z : Z) : Prop := - INT_MAX - 1 <= z <= INT_MAX.

(** An [int] result reduced to 32 bits, two's complement. *)
Definition wrap_int (z : Z) : Z := (z + 2 ^ 31) mod 2 ^ 32 - 2 ^ 31.

(** The conversion of an [int] to a 64-bit [size_t], and the product of
    two [size_t]. *)
Definition size_t_of_int (n : Z) : Z := n mod 2 ^ 64.
Definition size_t_mul (a b : Z) : Z := (a * b) mod 2 ^ 64.

(** ** The engine as a black box *)

(** One constructor per engine entry point the header calls, with the
    arguments it was called with (and, for the two that return a pointer,
    the pointer returned). *)
Inductive EngineCall : Type :=
| call_new_setup (lib : ScalarKind) (N : Z) (transform : pffft_transform_t) (ret : ptr)
| call_destroy_setup (lib : ScalarKind) (s : ptr)
| call_transform_ordered (lib : ScalarKind) (s input output work : ptr) (d : pffft_direction_t)
| call_transform (lib : ScalarKind) (s input output work : ptr) (d : pffft_direction_t)
| call_zreorder (lib : ScalarKind) (s input output : ptr) (d : pffft_direction_t)
| call_zconvolve_accumulate (lib : ScalarKind) (s a b ab : ptr) (scaling : spec_float)
| call_zconvolve_no_accu (lib : ScalarKind) (s a b ab : ptr) (scaling : spec_float)
| call_aligned_malloc (lib : ScalarKind) (nb_bytes : Z) (ret : ptr)
| call_aligned_free (lib : ScalarKind) (p : ptr).

(** What the header cannot know about the engine it is linked with:
    which lengths [new_setup] accepts, and whether [destroy_setup]
    tolerates a null handle. *)
Class EngineModel : Type := {
  valid_length : ScalarKind -> pffft_transform_t -> Z -> bool;
  destroy_accepts_null : bool
}.

(** The state outside the C++ objects: live setups (handle to library,
    length and transform type), live aligned blocks (address to size in
    bytes), the next unused address, and the engine calls made so far,
    oldest first. *)
Record World : Type := mkWorld {
  setups : gmap Z (ScalarKind * Z * pffft_transform_t);
  blocks : gmap Z Z;
  brk : positive;
  calls : list EngineCall
}.

Definition log (c : EngineCall) (w : World) : World :=
  mkWorld (setups w) (blocks w) (brk w) (calls w ++ [c]).

(** A call either returns, or runs into undefined behaviour; in both
    cases the world reached is kept. *)
Inductive Result (A : Type) : Type :=
| Ok (a : A) (w : World)
| Fault (w : World).
Arguments Ok {A} a w.
Arguments Fault {A} w.

Definition M (A : Type) : Type := World -> Result A.

Definition ret {A : Type} (a : A) : M A := fun w => Ok a w.

Definition bind {A B : Type} (m : M A) (f : A -> M B) : M B :=
  fun w =>
    match m w with
    | Ok a w' => f a w'
    | Fault w' => Fault w'
    end.

Declare Scope cpp_scope.
Delimit Scope cpp_scope with cpp.
Notation "x <- m ;; k" := (bind m (fun x => k))
  (at level 100, m at next level, right associativity) : cpp_scope.
Notation "m ;;; k" := (bind m (fun _ => k))
  (at level 100, right associativity) : cpp_scope.
Local Open Scope cpp_scope.

Section Engine.
Context `{EngineModel}.

(** Modelled from the spec: the engine's [createSetup(length, kind) -> handle | null]
    ([pffft_new_setup], [pffftd_new_setup]); an invalid length is
    surfaced as a null handle, a valid one yields a new live setup. *)
Definition new_setup (lib : ScalarKind) (N : Z) (transform : pffft_transform_t) : M ptr :=
  fun w =>
    if valid_length lib transform N then
      let h := Z.pos (brk w) in
      Ok h (mkWorld (<[h := (lib, N, transform)]> (setups w)) (blocks w)
                    (Pos.succ (brk w))
                    (calls w ++ [call_new_setup lib N transform h]))
    else Ok NULL (log (call_new_setup lib N transform NULL) w).

(** Modelled from the spec: the engine's [destroySetup(handle)]
    ([pffft_destroy_setup], [pffftd_destroy_setup]).  Destroying a handle
    that is not live is undefined; whether null is tolerated is the
    engine's choice. *)
Definition destroy_setup (lib : ScalarKind) (s : ptr) : M unit :=
  fun w =>
    let w' := log (call_destroy_setup lib s) w in
    if nonnull s then
      match setups w !! s with
      | Some _ => Ok tt (mkWorld (delete s (setups w)) (blocks w) (brk w) (calls w'))
      | None => Fault w'
      end
    else if destroy_accepts_null then Ok tt w' else Fault w'.

(** Modelled from the spec: the per-setup operations of the engine
    (transformOrdered, transform, reorder, convolve, convolveAccumulate);
    they need a live handle, their numeric effect is left out. *)
Definition with_setup (s : ptr) (c : EngineCall) : M unit :=
  fun w =>
    match setups w !! s with
    | Some _ => Ok tt (log c w)
    | None => Fault (log c w)
    end.

(** Modelled from the spec: [allocate(count) -> pointer] of the aligned
    allocator ([pffft_aligned_malloc], [pffftd_aligned_malloc]); a call
    that returns yields a block of the requested size at an unused,
    non-null address (allocation failure is fatal and not modelled). *)
Definition aligned_malloc (lib : ScalarKind) (nb_bytes : Z) : M ptr :=
  fun w =>
    let p := Z.pos (brk w) in
    Ok p (mkWorld (setups w) (<[p := nb_bytes]> (blocks w))
                  (Pos.succ (brk w))
                  (calls w ++ [call_aligned_malloc lib nb_bytes p])).

(** Modelled from the spec: [free(pointer)] of the aligned allocator
    ([pffft_aligned_free], [pffftd_aligned_free]); a no-op on null,
    undefined on memory that is not a live block. *)
Definition aligned_free (lib : ScalarKind) (p : ptr) : M unit :=
  fun w =>
    let w' := log (call_aligned_free lib p) w in
    if nonnull p then
      match blocks w !! p with
      | Some _ => Ok tt (mkWorld (setups w) (delete p (blocks w)) (brk w) (calls w'))
      | None => Fault w'
      end
    else Ok tt w'.

(** [Types<T>::alignedAlloc(int N)]:
    [pffft_aligned_malloc( N * sizeof(Scalar) )] for the real kinds,
    [pffft_aligned_malloc( N * sizeof(Complex) )] for the complex ones;
    the [int] is converted to [size_t] for the product. *)
Definition alignedAlloc (T : Kind) (N : Z) : M ptr :=
  match T with
  | Float =>
      aligned_malloc ScalarFloat (size_t_mul (size_t_of_int N) (sizeof_Scalar Float))
  | ComplexFloat =>
      aligned_malloc ScalarFloat (size_t_mul (size_t_of_int N) (sizeof_Complex ComplexFloat))
  | Double =>
      aligned_malloc ScalarDouble (size_t_mul (size_t_of_int N) (sizeof_Scalar Double))
  | ComplexDouble =>
      aligned_malloc ScalarDouble (size_t_mul (size_t_of_int N) (sizeof_Complex ComplexDouble))
  end.

(** [Types<T>::alignedFree(void *ptr)] *)
Definition alignedFree (T : Kind) (p : ptr) : M unit :=
  match T with
  | Float => aligned_free ScalarFloat p
  | ComplexFloat => aligned_free ScalarFloat p
  | Double => aligned_free ScalarDouble p
  | ComplexDouble => aligned_free ScalarDouble p
  end.

End Engine.

(** ** [Setup<T>]: the owner of one engine handle *)

Module Setup.

(** [PFFFT_Setup* self] (or [PFFFTD_Setup* self]) *)
Record t : Type := mk { self : ptr }.

(** [Setup() : self(NULL) {}] *)
Definition ctor : t := mk NULL.

(** The member functions each specialisation declares. *)
Inductive Member : Type :=
| m_prepareLength
| m_transform_ordered
| m_transform
| m_reorder
| m_convolveAccumulate
| m_convolve.

(** [Setup<float>], [Setup<double>] and [Setup< std::complex<double> >]
    declare all six; [Setup< std::complex<float> >] (lines 457-508) stops
    after [convolve]. *)
Definition declares (T : Kind) (m : Member) : bool :=
  match T with
  | Float => true
  | ComplexFloat =>
      match m with
      | m_convolveAccumulate => false
      | _ => true
      end
  | Double => true
  | ComplexDouble => true
  end.

Section WithEngine.
Context `{EngineModel}.

(** [void prepareLength(int length)], one body per specialisation.  Only
    [Setup<double>] resets [self] and tests [length > 0]. *)
Definition prepareLength (T : Kind) (length : Z) (s : t) : M t :=
  match T with
  | Float =>
      (if nonnull (self s) then destroy_setup ScalarFloat (self s) else ret tt) ;;;
      h <- new_setup ScalarFloat length PFFFT_REAL ;;
      ret (mk h)
  | ComplexFloat =>
      (if nonnull (self s) then destroy_setup ScalarFloat (self s) else ret tt) ;;;
      h <- new_setup ScalarFloat length PFFFT_COMPLEX ;;
      ret (mk h)
  | Double =>
      s1 <- (if nonnull (self s)
             then destroy_setup ScalarDouble (self s) ;;; ret (mk NULL)
             else ret s) ;;
      if length >? 0
      then h <- new_setup ScalarDouble length PFFFT_REAL ;; ret (mk h)
      else ret s1
  | ComplexDouble =>
      (if nonnull (self s) then destroy_setup ScalarDouble (self s) else ret tt) ;;;
      h <- new_setup ScalarDouble length PFFFT_COMPLEX ;;
      ret (mk h)
  end.

(** [~Setup() { pffft_destroy_setup(self); }], the same in all four. *)
Definition dtor (T : Kind) (s : t) : M unit :=
  destroy_setup (Scalar T) (self s).

(** [void transform_ordered(input, output, work, direction)] *)
Definition transform_ordered (T : Kind) (s : t)
    (input output work : ptr) (direction : pffft_direction_t) : M unit :=
  with_setup (self s)
    (call_transform_ordered (Scalar T) (self s) input output work direction).

(** [void transform(input, output, work, direction)] *)
Definition transform (T : Kind) (s : t)
    (input output work : ptr) (direction : pffft_direction_t) : M unit :=
  with_setup (self s)
    (call_transform (Scalar T) (self s) input output work direction).

(** [void reorder(input, output, direction)] *)
Definition reorder (T : Kind) (s : t)
    (input output : ptr) (direction : pffft_direction_t) : M unit :=
  with_setup (self s) (call_zreorder (Scalar T) (self s) input output direction).

(** [void convolveAccumulate(dft_a, dft_b, dft_ab, scaling)]; there is no
    such member in [Setup< std::complex<float> >], so a call on that kind
    is ill-formed: [None]. *)
Definition convolveAccumulate (T : Kind) (s : t)
    (dft_a dft_b dft_ab : ptr) (scaling : spec_float) : option (M unit) :=
  if declares T m_convolveAccumulate
  then Some (with_setup (self s)
               (call_zconvolve_accumulate (Scalar T) (self s) dft_a dft_b dft_ab scaling))
  else None.

(** [void convolve(dft_a, dft_b, dft_ab, scaling)] *)
Definition convolve (T : Kind) (s : t)
    (dft_a dft_b dft_ab : ptr) (scaling : spec_float) : M unit :=
  with_setup (self s)
    (call_zconvolve_no_accu (Scalar T) (self s) dft_a dft_b dft_ab scaling).

End WithEngine.
End Setup.

(** ** [Fft<T>]: the facade *)

Module Fft.

(** The private members [setup], [work], [length], [stackThresholdLen]. *)
Record t : Type := mk {
  setup : Setup.t;
  work : ptr;
  length : Z;
  stackThresholdLen : Z
}.

(** The default argument of the constructor. *)
Definition default_stackThresholdLen : Z := 4096.

(** [int getLength() const { return length; }] *)
Definition getLength (f : t) : Z := length f.

(** [int getSpectrumSize() const
      { return isComplexTransform() ? length : ( length / 2 ); }] *)
Definition getSpectrumSize (T : Kind) (f : t) : Z :=
  if isComplexTransform T then length f else Z.quot (length f) 2.

(** [int getInternalLayoutSize() const
      { return isComplexTransform() ? ( 2 * length ) : length; }]
    The product is an [int]. *)
Definition getInternalLayoutSize (T : Kind) (f : t) : Z :=
  if isComplexTransform T then wrap_int (2 * length f) else length f.








Section WithEngine.
Context `{EngineModel}.

(** [void Fft<T>::prepareLength(int newLength)] (lines 665-689) *)
Definition prepareLength (T : Kind) (newLength : Z) (f : t) : M t :=
  let wasOnHeap := nonnull (work f) in
  let useHeap := newLength >? stackThresholdLen f in
  if Bool.eqb useHeap wasOnHeap && (newLength =? length f) then ret f
  else
    let f1 := mk (setup f) (work f) newLength (stackThresholdLen f) in
    su <- Setup.prepareLength T (length f1) (setup f1) ;;
    let f2 := mk su (work f1) (length f1) (stackThresholdLen f1) in
    f3 <- (if nonnull (work f2)
           then alignedFree T (work f2) ;;;
                ret (mk (setup f2) NULL (length f2) (stackThresholdLen f2))
           else ret f2) ;;
    if useHeap
    then p <- alignedAlloc T (length f3) ;;
         ret (mk (setup f3) p (length f3) (stackThresholdLen f3))
    else ret f3.

(** [Fft<T>::Fft(int length, int stackThresholdLen)]: members set to
    [length(0)], [stackThresholdLen(stackThresholdLen)], [work(NULL)],
    [setup] default-constructed, then [prepareLength(length)]. *)
Definition ctor (T : Kind) (length stackThresholdLen : Z) : M t :=
  prepareLength T length (mk Setup.ctor NULL 0 stackThresholdLen).

(** [Fft( int length, int stackThresholdLen = 4096 )] with the default. *)
Definition ctor_default (T : Kind) (length : Z) : M t :=
  ctor T length default_stackThresholdLen.

(** The body of [Fft<T>::~Fft()]: [Types<T>::alignedFree(work);] *)
Definition dtor_body (T : Kind) (f : t) : M unit :=
  alignedFree T (work f).

(** Destruction of an [Fft<T>]: the destructor body, then the member
    [setup] is destroyed. *)
Definition dtor (T : Kind) (f : t) : M unit :=
  dtor_body T f ;;; Setup.dtor T (setup f).

(** [Complex* forward(const T* input, Complex* spectrum)] *)
Definition forward (T : Kind) (f : t) (input spectrum : ptr) : M ptr :=
  Setup.transform_ordered T (setup f) input spectrum (work f) PFFFT_FORWARD ;;;
  ret spectrum.

(** [T* inverse(const Complex* spectrum, T* output)] *)
Definition inverse (T : Kind) (f : t) (spectrum output : ptr) : M ptr :=
  Setup.transform_ordered T (setup f) spectrum output (work f) PFFFT_BACKWARD ;;;
  ret output.

(** [Scalar* forwardToInternalLayout(const T* input, Scalar* spectrum_internal_layout)] *)
Definition forwardToInternalLayout (T : Kind) (f : t)
    (input spectrum_internal_layout : ptr) : M ptr :=
  Setup.transform T (setup f) input spectrum_internal_layout (work f) PFFFT_FORWARD ;;;
  ret spectrum_internal_layout.

(** [T* inverseFromInternalLayout(const Scalar* spectrum_internal_layout, T* output)] *)
Definition inverseFromInternalLayout (T : Kind) (f : t)
    (spectrum_internal_layout output : ptr) : M ptr :=
  Setup.transform T (setup f) spectrum_internal_layout output (work f) PFFFT_BACKWARD ;;;
  ret output.

(** [void reorderSpectrum(const Scalar* input, Complex* output)] *)
Definition reorderSpectrum (T : Kind) (f : t) (input output : ptr) : M unit :=
  Setup.reorder T (setup f) input output PFFFT_FORWARD.

(** [Scalar* convolveAccumulate(dft_a, dft_b, dft_ab, scaling)]: calls
    [setup.convolveAccumulate], so it can be instantiated only where
    [Setup<T>] has that member. *)
Definition convolveAccumulate (T : Kind) (f : t)
    (dft_a dft_b dft_ab : ptr) (scaling : spec_float) : option (M ptr) :=
  match Setup.convolveAccumulate T (setup f) dft_a dft_b dft_ab scaling with
  | Some call => Some (call ;;; ret dft_ab)
  | None => None
  end.

(** [Scalar* convolve(dft_a, dft_b, dft_ab, scaling)] *)
Definition convolve (T : Kind) (f : t)
    (dft_a dft_b dft_ab : ptr) (scaling : spec_float) : M ptr :=
  Setup.convolve T (setup f) dft_a dft_b dft_ab scaling ;;;
  ret dft_ab.

End WithEngine.
End Fft.

(** ** Auxiliary definitions for the statements *)

(** The transform type each [Setup<T>] passes to [new_setup]. *)
Definition transform_type (T : Kind) : pffft_transform_t :=
  match T with
  | Float => PFFFT_REAL
  | ComplexFloat => PFFFT_COMPLEX
  | Double => PFFFT_REAL
  | ComplexDouble => PFFFT_COMPLEX
  end.

(** Whether [Setup<T>::prepareLength(N)] reaches [new_setup]: always,
    except in [Setup<double>], which tests [length > 0] first. *)
Definition creates (T : Kind) (N : Z) : bool :=
  match T with
  | Double => N >? 0
  | _ => true
  end.

(** The bytes [Types<T>::alignedAlloc(N)] asks for: [N] as a [size_t],
    times [sizeof(T)]. *)
Definition alloc_bytes (T : Kind) (N : Z) : Z :=
  size_t_mul (size_t_of_int N) (sizeof_T T).

(** A handle is owned when it is null or a live setup of the world. *)
Definition handle_ok (s : Setup.t) (w : World) : Prop :=
  Setup.self s = NULL \/ is_Some (setups w !! Setup.self s).

(** The facade owns its resources: the handle is null or live, and the
    scratch pointer is null or a live block of [length] elements of [T]. *)
Definition owns (T : Kind) (f : Fft.t) (w : World) : Prop :=
  handle_ok (Fft.setup f) w /\
  (Fft.work f = NULL \/ blocks w !! Fft.work f = Some (alloc_bytes T (Fft.length f))).

(** The test of [Fft<T>::prepareLength] in the words of the spec: the
    placement class asked for ([N > stackThresholdLen]: heap) is the one
    the facade is in (it holds a heap scratch buffer or not), and the
    length is the one it has. *)
Definition unchanged (N : Z) (f : Fft.t) : Prop :=
  (Fft.stackThresholdLen f < N <-> Fft.work f <> NULL) /\ N = Fft.length f.

(** The engine calls [Fft<T>::prepareLength] makes for the scratch buffer
    when it does not return early. *)
Definition scratch_calls (T : Kind) (N : Z) (f f' : Fft.t) : list EngineCall :=
  (if nonnull (Fft.work f) then [call_aligned_free (Scalar T) (Fft.work f)] else []) ++
  (if N >? Fft.stackThresholdLen f
   then [call_aligned_malloc (Scalar T) (alloc_bytes T N) (Fft.work f')] else []).

(** An engine with the length rule of a SIMD build of PFFFT (a positive
    multiple of 32 for real transforms, of 16 for complex ones) whose
    [destroy_setup] returns at once on null. *)
Definition lenient_engine : EngineModel :=
  {| valid_length := fun _ t N =>
       (0 <? N) && (N mod (match t with PFFFT_REAL => 32 | PFFFT_COMPLEX => 16 end) =? 0);
     destroy_accepts_null := true |}.

(** The same engine with a [destroy_setup] that dereferences its argument. *)
Definition strict_engine : EngineModel :=
  {| valid_length := @valid_length lenient_engine;
     destroy_accepts_null := false |}.

(** A world with nothing allocated and no call made. *)
Definition empty_world : World := mkWorld ∅ ∅ 1%positive [].

(** The members of a just-constructed [Fft<T>] before the constructor
    body runs, with the default threshold. *)
Definition fresh_facade : Fft.t := Fft.mk Setup.ctor NULL 0 Fft.default_stackThresholdLen.

(** An [Fft< std::complex<float> >] prepared for 8192 points, above the
    default threshold, and the world it lives in: handle [1], a scratch
    block of [8192 * sizeof(std::complex<float>)] bytes at [2]. *)
Definition big_facade : Fft.t := Fft.mk (Setup.mk 1) 2 8192 4096.

Definition big_world : World :=
  mkWorld {[ 1 := (ScalarFloat, 8192, PFFFT_COMPLEX) ]} {[ 2 := 65536 ]} 3%positive
          [call_new_setup ScalarFloat 8192 PFFFT_COMPLEX 1;
           call_aligned_malloc ScalarFloat 65536 2].

(** ** The static allocation helpers of [Fft<T>] and the allocator [PFAlloc<T>] *)



(** [static void alignedFree(void* ptr) { Types<T>::alignedFree(ptr); }] *)
Definition Fft_alignedFree (T : Kind) (p : ptr) : M unit := alignedFree T p.




(** [std::numeric_limits<std::size_t>::max()] with a 64-bit [size_t]. *)
Definition SIZE_MAX : Z := 2 ^ 64 - 1.

(** The conversion of a [size_t] to a 32-bit [int] (modular). *)
Definition int_of_size_t (n : Z) : Z := (n + 2 ^ 31) mod 2 ^ 32 - 2 ^ 31.

Module PFAlloc.

(** [size_type max_size () const throw()
      { return std::numeric_limits<std::size_t>::max() / sizeof(T); }] *)
Definition max_size (T : Kind) : Z := SIZE_MAX / sizeof_T T.

(** [pointer allocate (size_type num, const void* = 0)]: the count goes
    through the [int] parameter of [Types<T>::alignedAlloc]. *)
Definition allocate (T : Kind) (num : Z) : M ptr := alignedAlloc T (int_of_size_t num).

(** [void deallocate (pointer p, size_type num)
      { Types<T>::alignedFree(p); }], whatever [num] is. *)
Definition deallocate (T : Kind) (p : ptr) (num : Z) : M unit := alignedFree T p.

(** [operator==] and [operator!=] on two allocators, of any two kinds. *)
Definition equal (T1 T2 : Kind) : bool := true.
Definition not_equal (T1 T2 : Kind) : bool := false.

End PFAlloc.

(** The size in bytes of the block a computation returns, if it returns
    a live block. *)
Definition allocated_bytes (m : M ptr) (w : World) : option Z :=
  match m w with
  | Ok p w' => blocks w' !! p
  | Fault _ => None
  end.

(** ** A facade over its lifetime *)

Section Sessions.
Context `{EngineModel}.

(** [f.prepareLength(N1); f.prepareLength(N2); ...] *)
Fixpoint prepare_all (T : Kind) (Ns : list Z) (f : Fft.t) : M Fft.t :=
  match Ns with
  | [] => ret f
  | N :: Ns' => f' <- Fft.prepareLength T N f ;; prepare_all T Ns' f'
  end.

(** [Fft<T> f(N0, thr); f.prepareLength(N1); ...] *)
Definition session (T : Kind) (N0 thr : Z) (Ns : list Z) : M Fft.t :=
  f <- Fft.ctor T N0 thr ;; prepare_all T Ns f.

(** [{ Fft<T> f(N0, thr); f.prepareLength(N1); ... }]: the session, then
    the destruction at the end of the scope. *)
Definition lifetime (T : Kind) (N0 thr : Z) (Ns : list Z) : M unit :=
  f <- session T N0 thr Ns ;; Fft.dtor T f.

End Sessions.

(** One call of the raw-pointer API of a facade. *)
Inductive Op : Type :=
| op_forward (input spectrum : ptr)
| op_inverse (spectrum output : ptr)
| op_forwardToInternalLayout (input spectrum_internal_layout : ptr)
| op_inverseFromInternalLayout (spectrum_internal_layout output : ptr)
| op_reorderSpectrum (input output : ptr)
| op_convolve (dft_a dft_b dft_ab : ptr) (scaling : spec_float).

Definition run_op (T : Kind) (f : Fft.t) (o : Op) : M unit :=
  match o with
  | op_forward x y => Fft.forward T f x y ;;; ret tt
  | op_inverse x y => Fft.inverse T f x y ;;; ret tt
  | op_forwardToInternalLayout x y => Fft.forwardToInternalLayout T f x y ;;; ret tt
  | op_inverseFromInternalLayout x y => Fft.inverseFromInternalLayout T f x y ;;; ret tt
  | op_reorderSpectrum x y => Fft.reorderSpectrum T f x y
  | op_convolve a b ab scaling => Fft.convolve T f a b ab scaling ;;; ret tt
  end.

(** The world a computation ends in, whether it returns or not. *)
Definition world_of {A : Type} (r : Result A) : World :=
  match r with
  | Ok _ w => w
  | Fault w => w
  end.

(** The engine call an operation comes down to, on the handle [s] with
    the scratch pointer [work]. *)
Definition engine_call (lib : ScalarKind) (s work : ptr) (o : Op) : EngineCall :=
  match o with
  | op_forward x y => call_transform_ordered lib s x y work PFFFT_FORWARD
  | op_inverse x y => call_transform_ordered lib s x y work PFFFT_BACKWARD
  | op_forwardToInternalLayout x y => call_transform lib s x y work PFFFT_FORWARD
  | op_inverseFromInternalLayout x y => call_transform lib s x y work PFFFT_BACKWARD
  | op_reorderSpectrum x y => call_zreorder lib s x y PFFFT_FORWARD
  | op_convolve a b ab scaling => call_zconvolve_no_accu lib s a b ab scaling
  end.

(** Every key of a map is a positive address below [b]. *)
Definition below {A : Type} (m : gmap Z A) (b : positive) : Prop :=
  forall k, is_Some (m !! k) -> 0 < k < Z.pos b.

(** The addresses in use are positive and below the next unused one. *)
Definition world_ok (w : World) : Prop :=
  below (setups w) (brk w) /\ below (blocks w) (brk w).

(** What can be said of the handle of a facade whatever the engine: a
    handle is held only for a length the engine accepts, and is held
    whenever that length is positive and accepted. *)
Definition handle_tracks_length `{EngineModel} (T : Kind) (f : Fft.t) : Prop :=
  (Setup.self (Fft.setup f) <> NULL ->
   valid_length (Scalar T) (transform_type T) (Fft.length f) = true)
  /\ (0 < Fft.length f ->
      valid_length (Scalar T) (transform_type T) (Fft.length f) = true ->
      Setup.self (Fft.setup f) <> NULL).

(** Apart from the setups [S0] of others, the world holds the wrapper's
    handle, if it has one, as a setup of the given length and of the
    precision and transform type of [T]. *)
Definition holds_handle (T : Kind) (len : Z) (s : Setup.t) (w : World)
    (S0 : gmap Z (ScalarKind * Z * pffft_transform_t)) : Prop :=
  if nonnull (Setup.self s)
  then S0 !! Setup.self s = None
       /\ setups w = <[Setup.self s := (Scalar T, len, transform_type T)]> S0
  else setups w = S0.

(** Apart from the blocks [B0] of others, the world holds the scratch
    buffer, if there is one, as a block of [len] elements of [T]. *)
Definition holds_scratch (T : Kind) (len : Z) (p : ptr) (w : World)
    (B0 : gmap Z Z) : Prop :=
  if nonnull p
  then B0 !! p = None /\ blocks w = <[p := alloc_bytes T len]> B0
  else blocks w = B0.

(** The footprint of a facade: its handle and its scratch buffer, both
    for its current length, and nothing else beyond [S0] and [B0]. *)
Definition holds (T : Kind) (f : Fft.t) (w : World)
    (S0 : gmap Z (ScalarKind * Z * pffft_transform_t)) (B0 : gmap Z Z) : Prop :=
  holds_handle T (Fft.length f) (Fft.setup f) w S0
  /\ holds_scratch T (Fft.length f) (Fft.work f) w B0.

(** ** Sanity checks on concrete runs *)

Example run_ctor_small :
  match @Fft.ctor_default lenient_engine Float 64 empty_world with
  | Ok f w => f = Fft.mk (Setup.mk 1) NULL 64 4096
              /\ calls w = [call_new_setup ScalarFloat 64 PFFFT_REAL 1]
  | Fault _ => False
  end.
Proof. vm_compute. split; reflexivity. Qed.

Example run_ctor_large :
  match @Fft.ctor_default lenient_engine ComplexFloat 8192 empty_world with
  | Ok f w => f = Fft.mk (Setup.mk 1) 2 8192 4096
              /\ calls w = [call_new_setup ScalarFloat 8192 PFFFT_COMPLEX 1;
                            call_aligned_malloc ScalarFloat 65536 2]
              /\ blocks w !! 2 = Some 65536
  | Fault _ => False
  end.
Proof. vm_compute. repeat split; reflexivity. Qed.

(** [Fft<float> f(64); f.prepareLength(0);]: the wrapper destroys handle
    [1] and asks the engine for a setup of length [0]. *)
Example run_prepare_zero_float :
  match (f <- @Fft.ctor_default lenient_engine Float 64 ;;
         @Fft.prepareLength lenient_engine Float 0 f) empty_world with
  | Ok f w => f = Fft.mk (Setup.mk NULL) NULL 0 4096
              /\ calls w = [call_new_setup ScalarFloat 64 PFFFT_REAL 1;
                            call_destroy_setup ScalarFloat 1;
                            call_new_setup ScalarFloat 0 PFFFT_REAL NULL]
  | Fault _ => False
  end.
Proof. vm_compute. split; reflexivity. Qed.

(** [Fft<double> f(64); f.prepareLength(0);]: the wrapper destroys handle
    [1] and stops there. *)
Example run_prepare_zero_double :
  match (f <- @Fft.ctor_default lenient_engine Double 64 ;;
         @Fft.prepareLength lenient_engine Double 0 f) empty_world with
  | Ok f w => f = Fft.mk (Setup.mk NULL) NULL 0 4096
              /\ calls w = [call_new_setup ScalarDouble 64 PFFFT_REAL 1;
                            call_destroy_setup ScalarDouble 1]
  | Fault _ => False
  end.
Proof. vm_compute. split; reflexivity. Qed.

(** Destroying an [Fft<float>] of length [0] on an engine whose
    [destroy_setup] does not accept null: the scratch pointer is freed
    (a no-op on null), then the null handle reaches the engine. *)
Example run_dtor_empty_strict :
  match (f <- @Fft.ctor_default strict_engine Float 0 ;;
         @Fft.dtor strict_engine Float f) empty_world with
  | Ok _ _ => False
  | Fault w => calls w = [call_aligned_free ScalarFloat NULL;
                          call_destroy_setup ScalarFloat NULL]
  end.
Proof. vm_compute. reflexivity. Qed.

(** Outside the range of [int]: [Types<float>::alignedAlloc(-1)] asks
    for [2^64 - 4] bytes, [PFAlloc<float>::allocate(2^31)] for
    [2^64 - 2^33], and [getInternalLayoutSize()] of a complex facade of
    length [2^30] is [-2^31]. *)
Example run_out_of_range :
  alloc_bytes Float (-1) = 2 ^ 64 - 4
  /\ allocated_bytes (PFAlloc.allocate Float (2 ^ 31)) empty_world = Some (2 ^ 64 - 2 ^ 33)
  /\ Fft.getInternalLayoutSize ComplexFloat (Fft.mk (Setup.mk 1) 2 (2 ^ 30) 4096)
     = - 2 ^ 31.
Proof. vm_compute. repeat split; reflexivity. Qed.

(** ** Properties *)

Section Properties.
Context `{EngineModel}.

Lemma nonnull_true (p : ptr) : nonnull p = true <-> p <> NULL.
Proof.
  unfold nonnull. rewrite negb_true_iff, Z.eqb_neq. tauto.
Qed.

Lemma nonnull_false (p : ptr) : nonnull p = false <-> p = NULL.
Proof.
  unfold nonnull. rewrite negb_false_iff, Z.eqb_eq. tauto.
Qed.

(** *** The engine entry points on owned resources *)

Lemma destroy_setup_live (lib : ScalarKind) (s : ptr) (w : World) :
  nonnull s = true -> is_Some (setups w !! s) ->
  destroy_setup lib s w
  = Ok tt (mkWorld (delete s (setups w)) (blocks w) (brk w)
                   (calls w ++ [call_destroy_setup lib s])).
Proof.
  intros Hs [x Hx]. unfold destroy_setup. rewrite Hs, Hx. reflexivity.
Qed.

Lemma destroy_setup_null (lib : ScalarKind) (w : World) :
  destroy_setup lib NULL w
  = if destroy_accepts_null
    then Ok tt (log (call_destroy_setup lib NULL) w)
    else Fault (log (call_destroy_setup lib NULL) w).
Proof. reflexivity. Qed.

Lemma aligned_free_live (lib : ScalarKind) (p : ptr) (n : Z) (w : World) :
  nonnull p = true -> blocks w !! p = Some n ->
  aligned_free lib p w
  = Ok tt (mkWorld (setups w) (delete p (blocks w)) (brk w)
                   (calls w ++ [call_aligned_free lib p])).
Proof.
  intros Hp Hn. unfold aligned_free. rewrite Hp, Hn. reflexivity.
Qed.

Lemma aligned_free_null (lib : ScalarKind) (w : World) :
  aligned_free lib NULL w = Ok tt (log (call_aligned_free lib NULL) w).
Proof. reflexivity. Qed.

Lemma new_setup_handle_ok (lib : ScalarKind) (N : Z) (t : pffft_transform_t) (w : World) :
  exists h w',
    new_setup lib N t w = Ok h w'
    /\ h = (if valid_length lib t N then Z.pos (brk w) else NULL)
    /\ handle_ok (Setup.mk h) w'
    /\ blocks w' = blocks w
    /\ calls w' = calls w ++ [call_new_setup lib N t h].
Proof.
  unfold new_setup, handle_ok. destruct (valid_length lib t N); simpl.
  - eexists _, _. repeat split; try reflexivity.
    right. simpl. rewrite lookup_insert_eq. eauto.
  - eexists _, _. repeat split; try reflexivity. left. reflexivity.
Qed.

(** *** [Setup<T>::prepareLength] *)

(** The step every specialisation starts with: destroy the handle held. *)
Lemma release_held (lib : ScalarKind) (s : Setup.t) (w : World) :
  handle_ok s w ->
  exists w1,
    (if nonnull (Setup.self s) then destroy_setup lib (Setup.self s) else ret tt) w
    = Ok tt w1
    /\ blocks w1 = blocks w
    /\ brk w1 = brk w
    /\ calls w1 = calls w ++
         (if nonnull (Setup.self s) then [call_destroy_setup lib (Setup.self s)] else []).
Proof.
  intros Hok. destruct (nonnull (Setup.self s)) eqn:Hnn.
  - destruct Hok as [Hnull | Hlive].
    + apply nonnull_true in Hnn. contradiction.
    + rewrite (destroy_setup_live _ _ _ Hnn Hlive). eexists. repeat split.
  - exists w. unfold ret. repeat split. simpl. now rewrite app_nil_r.
Qed.

Lemma Setup_prepareLength_ok (T : Kind) (N : Z) (s : Setup.t) (w : World) :
  handle_ok s w ->
  exists s' w',
    Setup.prepareLength T N s w = Ok s' w'
    /\ handle_ok s' w'
    /\ blocks w' = blocks w
    /\ calls w' = calls w ++
         (if nonnull (Setup.self s)
          then [call_destroy_setup (Scalar T) (Setup.self s)] else []) ++
         (if creates T N
          then [call_new_setup (Scalar T) N (transform_type T) (Setup.self s')] else [])
    /\ (creates T N = false -> Setup.self s' = NULL).
Proof.
  intros Hok.
  destruct (release_held (Scalar T) s w Hok) as (w1 & Hrel & Hb1 & Hk1 & Hc1).
  destruct (new_setup_handle_ok (Scalar T) N (transform_type T) w1)
    as (h & w2 & Hnew & Hh & Hok2 & Hb2 & Hc2).
  destruct T; cbn [Scalar transform_type] in *;
    unfold Setup.prepareLength, creates.
  1, 2, 4: unfold bind; rewrite Hrel, Hnew; exists (Setup.mk h), w2;
    (split; [reflexivity |]); (split; [exact Hok2 |]);
    (split; [congruence |]);
    (split; [simpl; rewrite Hc2, Hc1, <- app_assoc; reflexivity | discriminate]).
  (* Setup<double> *)
  destruct (nonnull (Setup.self s)) eqn:Hnn.
  - unfold bind. rewrite Hrel. unfold ret at 1. destruct (N >? 0) eqn:HN.
    + rewrite Hnew. exists (Setup.mk h), w2.
      split; [reflexivity |]. split; [exact Hok2 |]. split; [congruence |].
      split; [simpl; rewrite Hc2, Hc1, <- app_assoc; reflexivity | discriminate].
    + exists (Setup.mk NULL), w1.
      split; [reflexivity |]. split; [left; reflexivity |]. split; [exact Hb1 |].
      split; [rewrite Hc1; reflexivity | reflexivity].
  - unfold ret in Hrel. injection Hrel as <-. unfold bind, ret at 1.
    destruct (N >? 0) eqn:HN.
    + rewrite Hnew. exists (Setup.mk h), w2.
      split; [reflexivity |]. split; [exact Hok2 |]. split; [congruence |].
      split; [simpl; rewrite Hc2, Hc1, <- app_assoc; reflexivity | discriminate].
    + exists s, w.
      split; [reflexivity |]. split; [exact Hok |]. split; [reflexivity |].
      split; [simpl; now rewrite app_nil_r |].
      intros _. now apply nonnull_false.
Qed.

(** *** The trait table's allocation functions *)

Lemma alignedAlloc_eq (T : Kind) (N : Z) (w : World) :
  alignedAlloc T N w
  = Ok (Z.pos (brk w))
       (mkWorld (setups w) (<[Z.pos (brk w) := alloc_bytes T N]> (blocks w))
                (Pos.succ (brk w))
                (calls w ++ [call_aligned_malloc (Scalar T) (alloc_bytes T N) (Z.pos (brk w))])).
Proof. destruct T; reflexivity. Qed.

Lemma alignedFree_eq (T : Kind) (p : ptr) :
  alignedFree T p = aligned_free (Scalar T) p.
Proof. destruct T; reflexivity. Qed.

(** *** Machine integers within their range *)

Lemma wrap_int_small (z : Z) : in_int z -> wrap_int z = z.
Proof.
  unfold in_int, INT_MAX, wrap_int. intros Hz.
  rewrite Z.mod_small by lia. lia.
Qed.

Lemma sizeof_T_bounds (T : Kind) : 4 <= sizeof_T T <= 16.
Proof. destruct T; cbn; lia. Qed.

(** For an [N] that is a non-negative [int] the product does not wrap. *)
Lemma alloc_bytes_int (T : Kind) (N : Z) :
  0 <= N <= INT_MAX -> alloc_bytes T N = N * sizeof_T T.
Proof.
  unfold INT_MAX, alloc_bytes, size_t_mul, size_t_of_int. intros HN.
  pose proof (sizeof_T_bounds T) as Hs.
  rewrite (Z.mod_small N) by lia.
  apply Z.mod_small. nia.
Qed.

(** [N] elements of [T] are [2 * N] scalars for a complex kind and [N]
    for a real one. *)
Lemma sizeof_T_scalars (T : Kind) (N : Z) :
  N * sizeof_T T = (if isComplexTransform T then 2 * N else N) * sizeof_Scalar T.
Proof.
  destruct T; unfold isComplexTransform, sizeof_Complex, sizeof_Scalar;
    cbn [sizeof_T Scalar sizeof_scalar];
    change (4 =? 2 * 4) with false; change (2 * 4 =? 2 * 4) with true;
    change (8 =? 2 * 8) with false; change (2 * 8 =? 2 * 8) with true;
    cbv iota; lia.
Qed.

(** [getInternalLayoutSize()] is exact as long as [2 * length] is an
    [int] for the complex kinds. *)
Lemma getInternalLayoutSize_exact (T : Kind) (f : Fft.t) :
  (isComplexTransform T = true -> in_int (2 * Fft.length f)) ->
  Fft.getInternalLayoutSize T f
  = if isComplexTransform T then 2 * Fft.length f else Fft.length f.
Proof.
  intros Hr. unfold Fft.getInternalLayoutSize.
  destruct (isComplexTransform T); [| reflexivity].
  apply wrap_int_small. apply Hr. reflexivity.
Qed.

(** *** [Fft<T>::prepareLength] *)

Lemma unchanged_test (N : Z) (f : Fft.t) :
  Bool.eqb (N >? Fft.stackThresholdLen f) (nonnull (Fft.work f)) && (N =? Fft.length f) = true
  <-> unchanged N f.
Proof.
  unfold unchanged.
  rewrite andb_true_iff, Bool.eqb_true_iff, Z.eqb_eq.
  rewrite <- (nonnull_true (Fft.work f)).
  destruct (nonnull (Fft.work f)).
  - rewrite Z.gtb_gt. intuition lia.
  - assert (Hiff : (N >? Fft.stackThresholdLen f) = false <-> ~ Fft.stackThresholdLen f < N).
    { rewrite Z.gtb_ltb, Z.ltb_nlt. reflexivity. }
    rewrite Hiff. intuition (try discriminate; try lia).
Qed.

(** The release of the scratch buffer in the middle of [prepareLength]. *)
Lemma release_scratch (T : Kind) (f : Fft.t) (w : World) :
  Fft.work f = NULL \/ is_Some (blocks w !! Fft.work f) ->
  exists w1,
    (if nonnull (Fft.work f)
     then alignedFree T (Fft.work f) ;;;
          ret (Fft.mk (Fft.setup f) NULL (Fft.length f) (Fft.stackThresholdLen f))
     else ret f) w
    = Ok (Fft.mk (Fft.setup f) NULL (Fft.length f) (Fft.stackThresholdLen f)) w1
    /\ setups w1 = setups w
    /\ brk w1 = brk w
    /\ calls w1 = calls w ++
         (if nonnull (Fft.work f) then [call_aligned_free (Scalar T) (Fft.work f)] else []).
Proof.
  intros Hw. destruct (nonnull (Fft.work f)) eqn:Hnn.
  - destruct Hw as [Hnull | Hlive].
    + apply nonnull_true in Hnn. contradiction.
    + destruct Hlive as [n Hlive].
      unfold bind. rewrite alignedFree_eq, (aligned_free_live _ _ _ _ Hnn Hlive).
      eexists. repeat split.
  - apply nonnull_false in Hnn. exists w. destruct f as [su wk len thr].
    simpl in *. subst wk. unfold ret. repeat split. now rewrite app_nil_r.
Qed.

Lemma Fft_prepareLength_cases (T : Kind) (N : Z) (f : Fft.t) (w : World) :
  owns T f w ->
  exists f' w',
    Fft.prepareLength T N f w = Ok f' w'
    /\ owns T f' w'
    /\ Fft.stackThresholdLen f' = Fft.stackThresholdLen f
    /\ Fft.length f' = N
    /\ (Fft.work f' <> NULL <-> Fft.stackThresholdLen f < N)
    /\ ((unchanged N f /\ f' = f /\ w' = w)
        \/ (~ unchanged N f
            /\ exists w1,
                 Setup.prepareLength T N (Fft.setup f) w = Ok (Fft.setup f') w1
                 /\ calls w' = calls w1 ++ scratch_calls T N f f')).
Proof.
  intros [Hh Hw]. unfold Fft.prepareLength.
  destruct (Bool.eqb (N >? Fft.stackThresholdLen f) (nonnull (Fft.work f))
            && (N =? Fft.length f)) eqn:Htest.
  - apply unchanged_test in Htest. exists f, w. unfold ret.
    destruct Htest as [Hcls Hlen].
    split; [reflexivity |]. split; [split; assumption |].
    split; [reflexivity |]. split; [congruence |].
    split; [tauto |]. left. repeat split; tauto.
  - assert (Hch : ~ unchanged N f).
    { intros Hu. apply unchanged_test in Hu. congruence. }
    destruct (Setup_prepareLength_ok T N (Fft.setup f) w Hh)
      as (su & w1 & Hsu & Hok1 & Hb1 & Hc1 & _).
    cbn [Fft.setup Fft.work Fft.length Fft.stackThresholdLen].
    unfold bind at 1. rewrite Hsu.
    destruct (release_scratch T (Fft.mk su (Fft.work f) N (Fft.stackThresholdLen f)) w1)
      as (w2 & Hrel & Hs2 & Hk2 & Hc2).
    { cbn [Fft.work Fft.length]. rewrite Hb1.
      destruct Hw as [Hw | Hw]; [left; exact Hw | right; eauto]. }
    cbn [Fft.setup Fft.work Fft.length Fft.stackThresholdLen] in Hrel.
    unfold bind at 1. rewrite Hrel.
    cbn [Fft.setup Fft.work Fft.length Fft.stackThresholdLen] in *.
    assert (Hok2 : handle_ok su w2).
    { unfold handle_ok in *. rewrite Hs2. exact Hok1. }
    destruct (N >? Fft.stackThresholdLen f) eqn:Hheap.
    + unfold bind. rewrite alignedAlloc_eq. unfold ret.
      eexists _, _. split; [reflexivity |].
      cbn [Fft.setup Fft.work Fft.length Fft.stackThresholdLen].
      split.
      { split; [exact Hok2 |]. right. cbn. apply lookup_insert_eq. }
      split; [reflexivity |]. split; [reflexivity |].
      split. { apply Z.gtb_gt in Hheap. split; [lia | discriminate]. }
      right. split; [exact Hch |]. exists w1. split; [reflexivity |].
      unfold scratch_calls. cbn [calls Fft.work]. rewrite Hheap, Hc2, Hk2.
      rewrite <- app_assoc. reflexivity.
    + unfold ret. eexists _, _. split; [reflexivity |].
      cbn [Fft.setup Fft.work Fft.length Fft.stackThresholdLen].
      split. { split; [exact Hok2 | left; reflexivity]. }
      split; [reflexivity |]. split; [reflexivity |].
      split.
      { rewrite Z.gtb_ltb, Z.ltb_nlt in Hheap. split; [congruence | tauto]. }
      right. split; [exact Hch |]. exists w1. split; [reflexivity |].
      unfold scratch_calls. rewrite Hheap, Hc2, app_nil_r. reflexivity.
Qed.

(** A call that does not return early leaves a different facade or a
    longer list of engine calls. *)
Lemma Fft_prepareLength_changed_visible (T : Kind) (N : Z) (f f' : Fft.t) (w w1 w' : World) :
  handle_ok (Fft.setup f) w ->
  ~ unchanged N f ->
  Fft.length f' = N ->
  Setup.prepareLength T N (Fft.setup f) w = Ok (Fft.setup f') w1 ->
  calls w' = calls w1 ++ scratch_calls T N f f' ->
  ~ (f' = f /\ w' = w).
Proof.
  intros Hh Hch Hlen Hsu Hc [Hf Hw]. subst f' w'.
  destruct (Setup_prepareLength_ok T N (Fft.setup f) w Hh)
    as (su & w1' & Hsu' & _ & _ & Hc1 & _).
  rewrite Hsu in Hsu'. injection Hsu' as Hsu_eq Hw1. subst w1'.
  rewrite Hc1 in Hc. apply (f_equal (@List.length EngineCall)) in Hc.
  rewrite !length_app in Hc.
  assert (Hnil : List.length (scratch_calls T N f f) = 0%nat) by lia.
  apply Hch. split; [| congruence].
  unfold scratch_calls in Hnil. rewrite length_app in Hnil.
  destruct (nonnull (Fft.work f)) eqn:Hnn; [simpl in Hnil; lia |].
  destruct (N >? Fft.stackThresholdLen f) eqn:Hheap; [simpl in Hnil; lia |].
  apply nonnull_false in Hnn. rewrite Z.gtb_ltb, Z.ltb_nlt in Hheap.
  split; [intros; contradiction | intros Hne; contradiction].
Qed.

(** After a call the facade holds a heap scratch buffer exactly when its
    length is above the threshold, so the placement class of a prepared
    facade is the one of the length it was prepared for. *)
Lemma unchanged_after_prepare (N0 N : Z) (f : Fft.t) :
  Fft.length f = N0 ->
  (Fft.work f <> NULL <-> Fft.stackThresholdLen f < N0) ->
  unchanged N f
  <-> ((Fft.stackThresholdLen f < N <-> Fft.stackThresholdLen f < N0) /\ N = N0).
Proof.
  intros Hlen Hcls. unfold unchanged. rewrite Hlen. tauto.
Qed.

(** C3. The facade's [prepareLength(N)], called on a facade previously
    prepared for [N0], returns without doing any work (same facade, same
    world, no engine call) exactly when the placement class (heap:
    above [stackThresholdLen]) and the length are those of the previous
    call; otherwise it stores [N], runs the wrapper's [prepareLength(N)],
    frees the scratch buffer it held and allocates a new one if and only
    if [N > stackThresholdLen]. *)
Theorem Fft_prepareLength_skips_iff_unchanged
    (T : Kind) (N0 N : Z) (f0 : Fft.t) (w0 : World) :
  owns T f0 w0 ->
  exists f w f' w',
    Fft.prepareLength T N0 f0 w0 = Ok f w
    /\ Fft.prepareLength T N f w = Ok f' w'
    /\ ((f' = f /\ w' = w)
        <-> ((Fft.stackThresholdLen f < N <-> Fft.stackThresholdLen f < N0) /\ N = N0))
    /\ (~ ((Fft.stackThresholdLen f < N <-> Fft.stackThresholdLen f < N0) /\ N = N0) ->
        Fft.length f' = N
        /\ (exists w1,
              Setup.prepareLength T N (Fft.setup f) w = Ok (Fft.setup f') w1
              /\ calls w' = calls w1 ++ scratch_calls T N f f')
        /\ (In (call_aligned_free (Scalar T) (Fft.work f)) (scratch_calls T N f f')
            <-> Fft.work f <> NULL)
        /\ (In (call_aligned_malloc (Scalar T) (alloc_bytes T N) (Fft.work f'))
               (scratch_calls T N f f')
            <-> Fft.stackThresholdLen f < N)
        /\ (Fft.work f' <> NULL <-> Fft.stackThresholdLen f < N)).
Proof.
  intros Hown0.
  destruct (Fft_prepareLength_cases T N0 f0 w0 Hown0)
    as (f & w & Hrun0 & Hown & Hthr & Hlen & Hcls & _).
  rewrite <- Hthr in Hcls.
  destruct (Fft_prepareLength_cases T N f w Hown)
    as (f' & w' & Hrun & Hown' & Hthr' & Hlen' & Hcls' & Hcase).
  exists f, w, f', w'. split; [exact Hrun0 |]. split; [exact Hrun |].
  rewrite <- (unchanged_after_prepare N0 N f Hlen Hcls).
  destruct Hcase as [(Hu & -> & ->) | (Hch & w1 & Hsu & Hc)].
  - split; [tauto |]. intros Hn. contradiction.
  - split.
    + split; [| intros Hu; contradiction].
      intros Heq. exfalso.
      exact (Fft_prepareLength_changed_visible T N f f' w w1 w'
               (proj1 Hown) Hch Hlen' Hsu Hc Heq).
    + intros _. split; [exact Hlen' |]. split; [exists w1; tauto |].
      unfold scratch_calls. rewrite !in_app_iff.
      assert (Hgt : (N >? Fft.stackThresholdLen f) = true <-> Fft.stackThresholdLen f < N)
        by (rewrite Z.gtb_ltb; apply Z.ltb_lt).
      split; [| split; [| exact Hcls']];
        [rewrite <- (nonnull_true (Fft.work f)) | rewrite <- Hgt].
      * destruct (nonnull (Fft.work f)), (N >? Fft.stackThresholdLen f);
          simpl; intuition (try discriminate; try congruence).
      * destruct (nonnull (Fft.work f)), (N >? Fft.stackThresholdLen f);
          simpl; intuition (try discriminate; try congruence).
Qed.

(** The initial members the constructor sets up own nothing. *)
Lemma owns_initial (T : Kind) (thr : Z) (w : World) :
  owns T (Fft.mk Setup.ctor NULL 0 thr) w.
Proof. split; left; reflexivity. Qed.

(** C5. For every [N >= 0], after the facade's [prepareLength(N)], and
    after the constructor called with length [N] (which calls it),
    [getLength()] returns [N]. *)
Theorem Fft_getLength_after_prepareLength
    (T : Kind) (N thr : Z) (f : Fft.t) (w w0 : World) :
  0 <= N ->
  owns T f w ->
  (exists f' w', Fft.prepareLength T N f w = Ok f' w' /\ Fft.getLength f' = N)
  /\ (exists f' w', Fft.ctor T N thr w0 = Ok f' w' /\ Fft.getLength f' = N).
Proof.
  intros _ Hown. split.
  - destruct (Fft_prepareLength_cases T N f w Hown)
      as (f' & w' & Hrun & _ & _ & Hlen & _).
    exists f', w'. split; [exact Hrun | exact Hlen].
  - destruct (Fft_prepareLength_cases T N _ w0 (owns_initial T thr w0))
      as (f' & w' & Hrun & _ & _ & Hlen & _).
    exists f', w'. split; [exact Hrun | exact Hlen].
Qed.

(** The body of the facade's destructor frees the scratch buffer. *)
Lemma Fft_dtor_body_frees (T : Kind) (f : Fft.t) (w : World) :
  owns T f w ->
  exists w',
    Fft.dtor_body T f w = Ok tt w'
    /\ calls w' = calls w ++ [call_aligned_free (Scalar T) (Fft.work f)]
    /\ setups w' = setups w
    /\ (Fft.work f <> NULL -> blocks w' !! Fft.work f = None).
Proof.
  intros [_ Hw]. unfold Fft.dtor_body. rewrite alignedFree_eq.
  destruct (nonnull (Fft.work f)) eqn:Hnn.
  - destruct Hw as [Hnull | Hlive]; [apply nonnull_true in Hnn; contradiction |].
    rewrite (aligned_free_live _ _ _ _ Hnn Hlive). eexists.
    split; [reflexivity |]. split; [reflexivity |]. split; [reflexivity |].
    intros _. cbn [blocks]. apply lookup_delete_eq.
  - apply nonnull_false in Hnn. rewrite Hnn, aligned_free_null. eexists.
    split; [reflexivity |]. split; [reflexivity |]. split; [reflexivity |].
    intros Hne. contradiction.
Qed.


(** C9. A second [prepareLength(N)] with the [N] of the call just before
    returns the same facade and the same world: length, scratch pointer
    and engine handle are unchanged and no engine call is made. *)
Theorem Fft_prepareLength_twice (T : Kind) (N : Z) (f : Fft.t) (w : World) :
  owns T f w ->
  exists f1 w1 f2 w2,
    Fft.prepareLength T N f w = Ok f1 w1
    /\ Fft.prepareLength T N f1 w1 = Ok f2 w2
    /\ Fft.length f2 = Fft.length f1
    /\ Fft.work f2 = Fft.work f1
    /\ Setup.self (Fft.setup f2) = Setup.self (Fft.setup f1)
    /\ f2 = f1
    /\ w2 = w1.
Proof.
  intros Hown.
  destruct (Fft_prepareLength_cases T N f w Hown)
    as (f1 & w1 & Hrun1 & Hown1 & Hthr & Hlen & Hcls & _).
  assert (Hu : unchanged N f1).
  { unfold unchanged. rewrite Hthr, Hlen. tauto. }
  apply unchanged_test in Hu.
  exists f1, w1, f1, w1. split; [exact Hrun1 |].
  split; [unfold Fft.prepareLength; rewrite Hu; reflexivity |].
  repeat split.
Qed.

(** *** Size queries and container helpers *)

Lemma isComplexTransform_eq (T : Kind) :
  isComplexTransform T
  = match T with
    | Float => false
    | ComplexFloat => true
    | Double => false
    | ComplexDouble => true
    end.
Proof. destruct T; reflexivity. Qed.


(** For lengths up to [2^30 - 1] the size queries and the byte count of
    the scratch buffer stay within [int], so that the arithmetic of the
    model is the arithmetic of the program. *)
Lemma Fft_sizes_in_int (T : Kind) (f : Fft.t) :
  0 <= Fft.length f <= 1073741823 ->
  in_int (Fft.getSpectrumSize T f)
  /\ in_int (Fft.getInternalLayoutSize T f)
  /\ 0 <= Fft.length f * sizeof_T T < 2 ^ 64.
Proof.
  intros Hl.
  rewrite getInternalLayoutSize_exact
    by (intros _; unfold in_int, INT_MAX; lia).
  unfold in_int, INT_MAX, Fft.getSpectrumSize.
  rewrite isComplexTransform_eq.
  assert (Hq : 0 <= Z.quot (Fft.length f) 2 <= Fft.length f).
  { rewrite Z.quot_div_nonneg by lia. split; [apply Z.div_pos; lia |].
    apply Z.div_le_upper_bound; lia. }
  destruct T; cbn [sizeof_T sizeof_scalar]; lia.
Qed.


(** *** The [Setup<T>] wrapper *)

(** With a positive length every specialisation destroys the handle it
    holds and asks the engine for a new setup of its own transform type. *)
Lemma Setup_prepareLength_positive (T : Kind) (N : Z) (s : Setup.t) (w : World) :
  0 < N ->
  handle_ok s w ->
  exists s' w',
    Setup.prepareLength T N s w = Ok s' w'
    /\ handle_ok s' w'
    /\ calls w' = calls w ++
         (if nonnull (Setup.self s)
          then [call_destroy_setup (Scalar T) (Setup.self s)] else []) ++
         [call_new_setup (Scalar T) N (transform_type T) (Setup.self s')].
Proof.
  intros HN Hok.
  destruct (Setup_prepareLength_ok T N s w Hok) as (s' & w' & Hrun & Hok' & _ & Hc & _).
  exists s', w'. split; [exact Hrun |]. split; [exact Hok' |].
  rewrite Hc. replace (creates T N) with true; [reflexivity |].
  unfold creates. destruct T; try reflexivity. symmetry. rewrite Z.gtb_ltb.
  now apply Z.ltb_lt.
Qed.

(** [Setup<double>] alone handles a non-positive length itself: the
    handle held is destroyed, the wrapper is empty, the engine is not
    asked for a setup. *)
Lemma Setup_double_prepareLength_nonpositive (N : Z) (s : Setup.t) (w : World) :
  N <= 0 ->
  handle_ok s w ->
  exists w',
    Setup.prepareLength Double N s w = Ok (Setup.mk NULL) w'
    /\ calls w' = calls w ++
         (if nonnull (Setup.self s)
          then [call_destroy_setup ScalarDouble (Setup.self s)] else []).
Proof.
  intros HN Hok.
  destruct (Setup_prepareLength_ok Double N s w Hok)
    as (s' & w' & Hrun & _ & _ & Hc & Hnull).
  assert (Hcr : creates Double N = false).
  { unfold creates. rewrite Z.gtb_ltb. apply Z.ltb_ge. exact HN. }
  rewrite Hcr, app_nil_r in Hc. specialize (Hnull Hcr).
  destruct s' as [h]. simpl in Hnull. subst h.
  exists w'. split; [exact Hrun | exact Hc].
Qed.

(** The other three leave it to the engine: the wrapper ends empty only
    if the engine turns non-positive lengths down. *)
Lemma Setup_prepareLength_nonpositive_engine (T : Kind) (N : Z) (s : Setup.t) (w : World) :
  (forall lib t n, n <= 0 -> valid_length lib t n = false) ->
  N <= 0 ->
  handle_ok s w ->
  exists w', Setup.prepareLength T N s w = Ok (Setup.mk NULL) w'.
Proof.
  intros Heng HN Hok.
  destruct (release_held (Scalar T) s w Hok) as (w1 & Hrel & _).
  destruct T; cbn [Scalar] in Hrel.
  3: { destruct (Setup_double_prepareLength_nonpositive N s w HN Hok) as (w' & Hrun & _).
       exists w'. exact Hrun. }
  all: unfold Setup.prepareLength, bind; rewrite Hrel;
    unfold new_setup; rewrite (Heng _ _ _ HN); eexists; reflexivity.
Qed.

(** C2, at the inputs where the code departs from it.  Called with length
    [0] on an empty wrapper, [Setup<float>], [Setup< std::complex<float> >]
    and [Setup< std::complex<double> >] call the engine's [new_setup] with
    length [0] and keep whatever handle it returns; only [Setup<double>]
    returns empty without calling the engine. *)
Theorem Setup_prepareLength_zero_reaches_new_setup (w : World) :
  let h lib t := if valid_length lib t 0 then Z.pos (brk w) else NULL in
  (exists w', Setup.prepareLength Float 0 Setup.ctor w
              = Ok (Setup.mk (h ScalarFloat PFFFT_REAL)) w'
              /\ calls w' = calls w ++
                   [call_new_setup ScalarFloat 0 PFFFT_REAL (h ScalarFloat PFFFT_REAL)])
  /\ (exists w', Setup.prepareLength ComplexFloat 0 Setup.ctor w
                 = Ok (Setup.mk (h ScalarFloat PFFFT_COMPLEX)) w'
                 /\ calls w' = calls w ++
                      [call_new_setup ScalarFloat 0 PFFFT_COMPLEX (h ScalarFloat PFFFT_COMPLEX)])
  /\ (exists w', Setup.prepareLength ComplexDouble 0 Setup.ctor w
                 = Ok (Setup.mk (h ScalarDouble PFFFT_COMPLEX)) w'
                 /\ calls w' = calls w ++
                      [call_new_setup ScalarDouble 0 PFFFT_COMPLEX (h ScalarDouble PFFFT_COMPLEX)])
  /\ Setup.prepareLength Double 0 Setup.ctor w = Ok Setup.ctor w.
Proof.
  cbv zeta. unfold Setup.prepareLength, Setup.ctor, bind, ret, new_setup, log.
  cbn [Setup.self nonnull NULL Z.eqb negb Z.gtb Z.compare].
  repeat split;
    try (destruct (valid_length _ _ 0); eexists; split; reflexivity).
Qed.

(** C10. Destroying a [Setup<T>] that holds no handle (never prepared, or,
    for [Setup<double>], prepared with a non-positive length) still calls
    the engine's [destroy_setup], with the null handle; the destructor
    returns if and only if the engine's [destroy_setup] accepts null. *)
Theorem Setup_dtor_on_empty (T : Kind) (N : Z) (s : Setup.t) (w : World) :
  N <= 0 ->
  handle_ok s w ->
  Setup.self Setup.ctor = NULL
  /\ Setup.dtor T Setup.ctor w
     = (if destroy_accepts_null
        then Ok tt (log (call_destroy_setup (Scalar T) NULL) w)
        else Fault (log (call_destroy_setup (Scalar T) NULL) w))
  /\ ((exists w', Setup.dtor T Setup.ctor w = Ok tt w') <-> destroy_accepts_null = true)
  /\ (exists w1,
        Setup.prepareLength Double N s w = Ok Setup.ctor w1
        /\ Setup.dtor Double Setup.ctor w1
           = (if destroy_accepts_null
              then Ok tt (log (call_destroy_setup ScalarDouble NULL) w1)
              else Fault (log (call_destroy_setup ScalarDouble NULL) w1))).
Proof.
  intros HN Hok. split; [reflexivity |].
  split; [apply destroy_setup_null |].
  split.
  - unfold Setup.dtor. cbn [Setup.ctor Setup.self]. rewrite destroy_setup_null.
    destruct destroy_accepts_null.
    + split; [reflexivity | intros _; eexists; reflexivity].
    + split; [intros [w' Hw']; discriminate | discriminate].
  - destruct (Setup_double_prepareLength_nonpositive N s w HN Hok) as (w1 & Hrun & _).
    exists w1. split; [exact Hrun | apply destroy_setup_null].
Qed.

(** C1, at the kind where the code departs from it.
    [Setup< std::complex<float> >] declares no [convolveAccumulate], so
    neither the wrapper's nor the facade's [convolveAccumulate] exists for
    the complex-single kind; for the other three kinds the facade forwards
    to the wrapper, which calls the engine's accumulating product, and
    returns [ab]. *)
Theorem convolveAccumulate_absent_for_complex_float
    (f : Fft.t) (a b ab : ptr) (scaling : spec_float) :
  Setup.declares ComplexFloat Setup.m_convolveAccumulate = false
  /\ Setup.convolveAccumulate ComplexFloat (Fft.setup f) a b ab scaling = None
  /\ Fft.convolveAccumulate ComplexFloat f a b ab scaling = None
  /\ Forall
       (fun T =>
          Setup.convolveAccumulate T (Fft.setup f) a b ab scaling
          = Some (with_setup (Setup.self (Fft.setup f))
                    (call_zconvolve_accumulate (Scalar T) (Setup.self (Fft.setup f))
                       a b ab scaling))
          /\ Fft.convolveAccumulate T f a b ab scaling
             = Some (with_setup (Setup.self (Fft.setup f))
                       (call_zconvolve_accumulate (Scalar T) (Setup.self (Fft.setup f))
                          a b ab scaling) ;;;
                     ret ab))
       [Float; Double; ComplexDouble].
Proof.
  repeat split. repeat constructor.
Qed.

(** Destroying a facade frees the scratch buffer, then destroys the
    handle; it returns when the handle is live or the engine accepts null. *)
Lemma Fft_dtor_ok (T : Kind) (f : Fft.t) (w : World) :
  owns T f w ->
  Setup.self (Fft.setup f) <> NULL \/ destroy_accepts_null = true ->
  exists w',
    Fft.dtor T f w = Ok tt w'
    /\ calls w' = calls w ++
         [call_aligned_free (Scalar T) (Fft.work f);
          call_destroy_setup (Scalar T) (Setup.self (Fft.setup f))].
Proof.
  intros Hown Hsafe.
  destruct (Fft_dtor_body_frees T f w Hown) as (w1 & Hbody & Hc1 & Hs1 & _).
  unfold Fft.dtor, bind. rewrite Hbody. unfold Setup.dtor.
  destruct (nonnull (Setup.self (Fft.setup f))) eqn:Hnn.
  - destruct Hown as [[Hnull | Hlive] _]; [apply nonnull_true in Hnn; contradiction |].
    rewrite <- Hs1 in Hlive. rewrite (destroy_setup_live _ _ _ Hnn Hlive).
    eexists. split; [reflexivity |]. cbn [calls]. rewrite Hc1, <- app_assoc. reflexivity.
  - apply nonnull_false in Hnn. rewrite Hnn in *.
    destruct Hsafe as [Hne | Hacc]; [contradiction |].
    rewrite destroy_setup_null, Hacc. eexists. split; [reflexivity |].
    unfold log. cbn [calls]. rewrite Hc1, <- app_assoc. reflexivity.
Qed.

(** *** The transforms: one engine call each *)

(** On a facade that holds a live handle, [forward] is one call of the
    engine's ordered transform, forwards, with the facade's scratch
    pointer; [inverse] is the same call backwards. *)
Lemma Fft_forward_inverse_calls (T : Kind) (f : Fft.t) (x y : ptr) (w : World) :
  is_Some (setups w !! Setup.self (Fft.setup f)) ->
  Fft.forward T f x y w
  = Ok y (log (call_transform_ordered (Scalar T) (Setup.self (Fft.setup f))
                 x y (Fft.work f) PFFFT_FORWARD) w)
  /\ Fft.inverse T f y x w
     = Ok x (log (call_transform_ordered (Scalar T) (Setup.self (Fft.setup f))
                    y x (Fft.work f) PFFFT_BACKWARD) w).
Proof.
  intros [v Hv].
  unfold Fft.forward, Fft.inverse, Setup.transform_ordered, with_setup, bind, ret.
  rewrite Hv. split; reflexivity.
Qed.

(** [forwardToInternalLayout] is one call of the engine's unordered
    transform and [reorderSpectrum] one call of its reordering. *)
Lemma Fft_internal_layout_calls (T : Kind) (f : Fft.t) (x y z : ptr) (w : World) :
  is_Some (setups w !! Setup.self (Fft.setup f)) ->
  Fft.forwardToInternalLayout T f x y w
  = Ok y (log (call_transform (Scalar T) (Setup.self (Fft.setup f))
                 x y (Fft.work f) PFFFT_FORWARD) w)
  /\ Fft.reorderSpectrum T f y z w
     = Ok tt (log (call_zreorder (Scalar T) (Setup.self (Fft.setup f))
                     y z PFFFT_FORWARD) w).
Proof.
  intros [v Hv].
  unfold Fft.forwardToInternalLayout, Fft.reorderSpectrum, Setup.transform,
    Setup.reorder, with_setup, bind, ret.
  rewrite Hv. split; reflexivity.
Qed.

End Properties.

(** ** Instances on concrete facades *)

Lemma Fft_prepareLength_skips_iff_unchanged_witness :
  owns ComplexFloat fresh_facade empty_world
  /\ exists f w f' w',
       @Fft.prepareLength lenient_engine ComplexFloat 8192 fresh_facade empty_world = Ok f w
       /\ @Fft.prepareLength lenient_engine ComplexFloat 64 f w = Ok f' w'
       /\ ((f' = f /\ w' = w)
           <-> ((Fft.stackThresholdLen f < 64 <-> Fft.stackThresholdLen f < 8192)
                /\ 64 = 8192))
       /\ (~ ((Fft.stackThresholdLen f < 64 <-> Fft.stackThresholdLen f < 8192)
              /\ 64 = 8192) ->
           Fft.length f' = 64
           /\ (exists w1,
                 @Setup.prepareLength lenient_engine ComplexFloat 64 (Fft.setup f) w
                 = Ok (Fft.setup f') w1
                 /\ calls w' = calls w1 ++ scratch_calls ComplexFloat 64 f f')
           /\ (In (call_aligned_free (Scalar ComplexFloat) (Fft.work f))
                  (scratch_calls ComplexFloat 64 f f')
               <-> Fft.work f <> NULL)
           /\ (In (call_aligned_malloc (Scalar ComplexFloat) (alloc_bytes ComplexFloat 64)
                     (Fft.work f'))
                  (scratch_calls ComplexFloat 64 f f')
               <-> Fft.stackThresholdLen f < 64)
           /\ (Fft.work f' <> NULL <-> Fft.stackThresholdLen f < 64)).
Proof.
  split.
  - split; left; reflexivity.
  - apply (@Fft_prepareLength_skips_iff_unchanged lenient_engine
             ComplexFloat 8192 64 fresh_facade empty_world).
    split; left; reflexivity.
Defined.

Lemma Fft_getLength_after_prepareLength_witness :
  0 <= 64
  /\ owns ComplexFloat big_facade big_world
  /\ (exists f' w',
        @Fft.prepareLength lenient_engine ComplexFloat 64 big_facade big_world = Ok f' w'
        /\ Fft.getLength f' = 64)
  /\ (exists f' w',
        @Fft.ctor lenient_engine ComplexFloat 64 4096 empty_world = Ok f' w'
        /\ Fft.getLength f' = 64).
Proof.
  assert (Hown : owns ComplexFloat big_facade big_world).
  { split; right; [eexists |]; reflexivity. }
  split; [lia |]. split; [exact Hown |].
  apply (@Fft_getLength_after_prepareLength lenient_engine
           ComplexFloat 64 4096 big_facade big_world empty_world); [lia | exact Hown].
Defined.


Lemma Fft_prepareLength_twice_witness :
  owns ComplexFloat big_facade big_world
  /\ exists f1 w1 f2 w2,
       @Fft.prepareLength lenient_engine ComplexFloat 64 big_facade big_world = Ok f1 w1
       /\ @Fft.prepareLength lenient_engine ComplexFloat 64 f1 w1 = Ok f2 w2
       /\ Fft.length f2 = Fft.length f1
       /\ Fft.work f2 = Fft.work f1
       /\ Setup.self (Fft.setup f2) = Setup.self (Fft.setup f1)
       /\ f2 = f1
       /\ w2 = w1.
Proof.
  assert (Hown : owns ComplexFloat big_facade big_world).
  { split; right; [eexists |]; reflexivity. }
  split; [exact Hown |].
  apply (@Fft_prepareLength_twice lenient_engine ComplexFloat 64 big_facade big_world Hown).
Defined.



Lemma Setup_dtor_on_empty_witness :
  -1 <= 0
  /\ handle_ok (Setup.mk 1) big_world
  /\ Setup.self Setup.ctor = NULL
  /\ @Setup.dtor strict_engine Double Setup.ctor big_world
     = (if @destroy_accepts_null strict_engine
        then Ok tt (log (call_destroy_setup (Scalar Double) NULL) big_world)
        else Fault (log (call_destroy_setup (Scalar Double) NULL) big_world))
  /\ ((exists w', @Setup.dtor strict_engine Double Setup.ctor big_world = Ok tt w')
      <-> @destroy_accepts_null strict_engine = true)
  /\ (exists w1,
        @Setup.prepareLength strict_engine Double (-1) (Setup.mk 1) big_world
        = Ok Setup.ctor w1
        /\ @Setup.dtor strict_engine Double Setup.ctor w1
           = (if @destroy_accepts_null strict_engine
              then Ok tt (log (call_destroy_setup ScalarDouble NULL) w1)
              else Fault (log (call_destroy_setup ScalarDouble NULL) w1))).
Proof.
  assert (Hok : handle_ok (Setup.mk 1) big_world).
  { right; eexists; reflexivity. }
  split; [lia |]. split; [exact Hok |].
  apply (@Setup_dtor_on_empty strict_engine Double (-1) (Setup.mk 1) big_world);
    [lia | exact Hok].
Defined.

(** ** The footprint of a facade over its lifetime *)

Section Lifetime.
Context `{EngineModel}.

(** *** Addresses *)

Lemma below_fresh {A : Type} (m : gmap Z A) (b : positive) :
  below m b -> m !! Z.pos b = None.
Proof.
  intros Hb. destruct (m !! Z.pos b) as [a |] eqn:Hm; [| reflexivity].
  assert (Hk : 0 < Z.pos b < Z.pos b) by (apply Hb; exists a; exact Hm). lia.
Qed.

Lemma below_null {A : Type} (m : gmap Z A) (b : positive) :
  below m b -> m !! NULL = None.
Proof.
  intros Hb. destruct (m !! NULL) as [a |] eqn:Hm; [| reflexivity].
  assert (Hk : 0 < NULL < Z.pos b) by (apply Hb; exists a; exact Hm).
  unfold NULL in Hk. lia.
Qed.

Lemma below_succ {A : Type} (m : gmap Z A) (b : positive) :
  below m b -> below m (Pos.succ b).
Proof.
  intros Hb k Hk. specialize (Hb k Hk). rewrite Pos2Z.inj_succ. lia.
Qed.

Lemma below_insert_fresh {A : Type} (m : gmap Z A) (b : positive) (x : A) :
  below m b -> below (<[Z.pos b := x]> m) (Pos.succ b).
Proof.
  intros Hb k Hk. rewrite Pos2Z.inj_succ.
  apply lookup_insert_is_Some' in Hk. destruct Hk as [<- | Hk]; [lia |].
  specialize (Hb k Hk). lia.
Qed.

Lemma below_insert_inv {A : Type} (m : gmap Z A) (b : positive) (k : Z) (x : A) :
  below (<[k := x]> m) b -> below m b.
Proof.
  intros Hb j Hj. apply Hb. apply lookup_insert_is_Some'. right. exact Hj.
Qed.

Lemma below_delete {A : Type} (m : gmap Z A) (b : positive) (k : Z) :
  below m b -> below (delete k m) b.
Proof.
  intros Hb j Hj. apply lookup_delete_is_Some in Hj. apply Hb. tauto.
Qed.

(** *** [Setup<T>::prepareLength] on the footprint *)

Lemma Setup_prepareLength_holds (T : Kind) (len N : Z) (s : Setup.t) (w : World)
    (S0 : gmap Z (ScalarKind * Z * pffft_transform_t)) :
  world_ok w ->
  holds_handle T len s w S0 ->
  exists s' w',
    Setup.prepareLength T N s w = Ok s' w'
    /\ holds_handle T N s' w' S0
    /\ blocks w' = blocks w
    /\ world_ok w'
    /\ Setup.self s'
       = (if creates T N && valid_length (Scalar T) (transform_type T) N
          then Z.pos (brk w) else NULL).
Proof.
  intros [HbS HbB] Hh. unfold holds_handle in Hh.
  (* the handle held is destroyed *)
  assert (Hrel : exists w1,
             (if nonnull (Setup.self s)
              then destroy_setup (Scalar T) (Setup.self s) else ret tt) w = Ok tt w1
             /\ setups w1 = S0 /\ blocks w1 = blocks w /\ brk w1 = brk w
             /\ below S0 (brk w)).
  { destruct (nonnull (Setup.self s)) eqn:Hnn.
    - destruct Hh as [Hnone Hset].
      rewrite (destroy_setup_live _ _ _ Hnn)
        by (rewrite Hset, lookup_insert_eq; eauto).
      eexists. split; [reflexivity |]. cbn [setups blocks brk].
      rewrite Hset, (delete_insert_id _ _ _ Hnone).
      split; [reflexivity |]. split; [reflexivity |]. split; [reflexivity |].
      rewrite Hset in HbS. exact (below_insert_inv _ _ _ _ HbS).
    - exists w. unfold ret. rewrite <- Hh.
      split; [reflexivity |]. split; [reflexivity |]. split; [reflexivity |].
      split; [reflexivity | exact HbS]. }
  destruct Hrel as (w1 & Hrel & HS1 & HB1 & Hk1 & HbS0).
  (* the engine is asked for a new one *)
  assert (Hnew : exists w2,
             new_setup (Scalar T) N (transform_type T) w1
             = Ok (if valid_length (Scalar T) (transform_type T) N
                   then Z.pos (brk w) else NULL) w2
             /\ holds_handle T N
                  (Setup.mk (if valid_length (Scalar T) (transform_type T) N
                             then Z.pos (brk w) else NULL)) w2 S0
             /\ blocks w2 = blocks w /\ world_ok w2).
  { unfold new_setup, holds_handle, log. rewrite Hk1, HS1, HB1.
    destruct (valid_length (Scalar T) (transform_type T) N).
    - eexists. split; [reflexivity |]. cbn [Setup.self setups blocks brk nonnull].
      change (negb (Z.pos (brk w) =? NULL)) with true. cbv iota.
      split; [split; [exact (below_fresh _ _ HbS0) | reflexivity] |].
      split; [reflexivity |].
      split; cbn [setups blocks brk];
        [apply below_insert_fresh; exact HbS0 | apply below_succ; exact HbB].
    - eexists. split; [reflexivity |]. cbn [Setup.self setups blocks brk].
      change (nonnull NULL) with false. cbv iota.
      split; [reflexivity |]. split; [reflexivity |].
      split; cbn [setups blocks brk]; assumption. }
  destruct Hnew as (w2 & Hnew & Hh2 & HB2 & Hok2).
  assert (Hempty : holds_handle T N (Setup.mk NULL) w1 S0 /\ world_ok w1).
  { split; [exact HS1 |]. split; rewrite ?HS1, ?HB1, Hk1; assumption. }
  destruct T; cbn [Scalar transform_type creates andb] in *;
    unfold Setup.prepareLength.
  1, 2, 4: unfold bind; rewrite Hrel, Hnew; eexists _, _;
    (split; [reflexivity |]); cbn [Setup.self]; tauto.
  (* Setup<double> *)
  destruct (nonnull (Setup.self s)) eqn:Hnn.
  - unfold bind. rewrite Hrel. unfold ret at 1. destruct (N >? 0).
    + rewrite Hnew. eexists _, _. split; [reflexivity |]. cbn [Setup.self andb]. tauto.
    + eexists _, _. split; [reflexivity |]. cbn [Setup.self andb]. tauto.
  - unfold ret in Hrel. injection Hrel as <-. unfold bind, ret at 1.
    destruct (N >? 0).
    + rewrite Hnew. eexists _, _. split; [reflexivity |]. cbn [Setup.self andb]. tauto.
    + exists s, w. split; [reflexivity |]. cbn [andb].
      apply nonnull_false in Hnn. destruct s as [h]. cbn [Setup.self] in *. subst h.
      tauto.
Qed.

(** *** [Fft<T>::prepareLength] on the footprint *)

Lemma Fft_prepareLength_holds (T : Kind) (N : Z) (f : Fft.t) (w : World)
    (S0 : gmap Z (ScalarKind * Z * pffft_transform_t)) (B0 : gmap Z Z) :
  world_ok w ->
  holds T f w S0 B0 ->
  exists f' w',
    Fft.prepareLength T N f w = Ok f' w'
    /\ holds T f' w' S0 B0
    /\ world_ok w'
    /\ Fft.stackThresholdLen f' = Fft.stackThresholdLen f
    /\ Fft.length f' = N
    /\ (Fft.work f' <> NULL <-> Fft.stackThresholdLen f < N)
    /\ ((unchanged N f /\ f' = f /\ w' = w)
        \/ (~ unchanged N f
            /\ Setup.self (Fft.setup f')
               = (if creates T N && valid_length (Scalar T) (transform_type T) N
                  then Z.pos (brk w) else NULL))).
Proof.
  intros Hok [Hh Hs]. unfold Fft.prepareLength.
  destruct (Bool.eqb (N >? Fft.stackThresholdLen f) (nonnull (Fft.work f))
            && (N =? Fft.length f)) eqn:Htest.
  - apply unchanged_test in Htest. exists f, w. unfold ret.
    destruct Htest as [Hcls Hlen].
    split; [reflexivity |]. split; [split; assumption |]. split; [exact Hok |].
    split; [reflexivity |]. split; [congruence |]. split; [tauto |].
    left. split; [split; assumption |]. split; reflexivity.
  - assert (Hch : ~ unchanged N f).
    { intros Hu. apply unchanged_test in Hu. congruence. }
    destruct (Setup_prepareLength_holds T (Fft.length f) N (Fft.setup f) w S0 Hok Hh)
      as (su & w1 & Hsu & Hh1 & Hb1 & [HbS1 HbB1] & Hself).
    cbn [Fft.setup Fft.work Fft.length Fft.stackThresholdLen].
    unfold bind at 1. rewrite Hsu.
    (* the scratch buffer held is freed *)
    assert (Hrel : exists w2,
               (if nonnull (Fft.work f)
                then alignedFree T (Fft.work f) ;;;
                     ret (Fft.mk su NULL N (Fft.stackThresholdLen f))
                else ret (Fft.mk su (Fft.work f) N (Fft.stackThresholdLen f))) w1
               = Ok (Fft.mk su NULL N (Fft.stackThresholdLen f)) w2
               /\ setups w2 = setups w1 /\ blocks w2 = B0 /\ brk w2 = brk w1
               /\ below B0 (brk w1)).
    { unfold holds_scratch in Hs. rewrite <- Hb1 in Hs.
      destruct (nonnull (Fft.work f)) eqn:Hnn.
      - destruct Hs as [Hnone Hblk].
        assert (Hlive : blocks w1 !! Fft.work f = Some (alloc_bytes T (Fft.length f)))
          by (rewrite Hblk; apply lookup_insert_eq).
        unfold bind. rewrite alignedFree_eq, (aligned_free_live _ _ _ _ Hnn Hlive).
        unfold ret. eexists. split; [reflexivity |]. cbn [setups blocks brk].
        rewrite Hblk, (delete_insert_id _ _ _ Hnone).
        split; [reflexivity |]. split; [reflexivity |]. split; [reflexivity |].
        rewrite Hblk in HbB1. exact (below_insert_inv _ _ _ _ HbB1).
      - apply nonnull_false in Hnn. rewrite Hnn. exists w1. unfold ret.
        split; [reflexivity |]. split; [reflexivity |]. split; [exact Hs |].
        split; [reflexivity |]. rewrite <- Hs. exact HbB1. }
    destruct Hrel as (w2 & Hrel & HS2 & HB2 & Hk2 & HbB0).
    unfold bind at 1. rewrite Hrel.
    cbn [Fft.setup Fft.work Fft.length Fft.stackThresholdLen].
    assert (Hh2 : holds_handle T N su w2 S0).
    { unfold holds_handle in *. rewrite HS2. exact Hh1. }
    destruct (N >? Fft.stackThresholdLen f) eqn:Hheap.
    + unfold bind. rewrite alignedAlloc_eq. unfold ret.
      eexists _, _. split; [reflexivity |].
      cbn [Fft.setup Fft.work Fft.length Fft.stackThresholdLen].
      split.
      { split; [unfold holds_handle in *; cbn [setups]; exact Hh2 |].
        unfold holds_scratch. cbn [blocks].
        change (nonnull (Z.pos (brk w2))) with true. cbv iota.
        rewrite HB2, Hk2. split; [exact (below_fresh _ _ HbB0) | reflexivity]. }
      split.
      { split; cbn [setups blocks brk]; rewrite ?HS2, ?HB2, Hk2;
          [apply below_succ; exact HbS1 | apply below_insert_fresh; exact HbB0]. }
      split; [reflexivity |]. split; [reflexivity |].
      split. { apply Z.gtb_gt in Hheap. split; [lia | discriminate]. }
      right. split; [exact Hch | exact Hself].
    + unfold ret. eexists _, _. split; [reflexivity |].
      cbn [Fft.setup Fft.work Fft.length Fft.stackThresholdLen].
      split. { split; [exact Hh2 | exact HB2]. }
      split. { split; rewrite ?HS2, ?HB2, Hk2; assumption. }
      split; [reflexivity |]. split; [reflexivity |].
      split.
      { rewrite Z.gtb_ltb, Z.ltb_nlt in Hheap. split; [congruence | tauto]. }
      right. split; [exact Hch | exact Hself].
Qed.

(** *** Sessions *)

Lemma holds_initial (T : Kind) (thr : Z) (w : World) :
  holds T (Fft.mk Setup.ctor NULL 0 thr) w (setups w) (blocks w).
Proof. split; reflexivity. Qed.

Lemma handle_tracks_initial (T : Kind) (thr : Z) :
  handle_tracks_length T (Fft.mk Setup.ctor NULL 0 thr).
Proof.
  split; cbn [Fft.setup Fft.length Setup.ctor Setup.self].
  - intros Hne. contradiction.
  - intros Hpos. lia.
Qed.

Lemma handle_tracks_step (T : Kind) (N : Z) (f f' : Fft.t) (w w' : World) :
  handle_tracks_length T f ->
  Fft.length f' = N ->
  (unchanged N f /\ f' = f /\ w' = w)
  \/ (~ unchanged N f
      /\ Setup.self (Fft.setup f')
         = (if creates T N && valid_length (Scalar T) (transform_type T) N
            then Z.pos (brk w) else NULL)) ->
  handle_tracks_length T f'.
Proof.
  intros Htr Hlen Hcase.
  destruct Hcase as [(_ & -> & _) | (_ & Hself)]; [exact Htr |].
  unfold handle_tracks_length. rewrite Hself, Hlen.
  destruct (valid_length (Scalar T) (transform_type T) N) eqn:Hv.
  - split; [reflexivity |]. intros Hpos _.
    replace (creates T N) with true; [discriminate |].
    unfold creates. destruct T; try reflexivity.
    symmetry. rewrite Z.gtb_ltb. now apply Z.ltb_lt.
  - rewrite andb_false_r. split; [intros Hne; contradiction | discriminate].
Qed.

Lemma last_cons_default (l : list Z) (a d d' : Z) :
  List.last (a :: l) d = List.last (a :: l) d'.
Proof.
  revert a. induction l as [| b l IH]; intros a; [reflexivity |].
  change (List.last (b :: l) d = List.last (b :: l) d'). apply IH.
Qed.

Lemma prepare_all_holds (T : Kind) (Ns : list Z)
    (S0 : gmap Z (ScalarKind * Z * pffft_transform_t)) (B0 : gmap Z Z) :
  forall (f : Fft.t) (w : World),
    world_ok w ->
    holds T f w S0 B0 ->
    handle_tracks_length T f ->
    (Fft.work f <> NULL <-> Fft.stackThresholdLen f < Fft.length f) ->
    exists f' w',
      prepare_all T Ns f w = Ok f' w'
      /\ world_ok w'
      /\ holds T f' w' S0 B0
      /\ handle_tracks_length T f'
      /\ Fft.stackThresholdLen f' = Fft.stackThresholdLen f
      /\ Fft.length f' = List.last Ns (Fft.length f)
      /\ (Fft.work f' <> NULL <-> Fft.stackThresholdLen f' < Fft.length f').
Proof.
  induction Ns as [| N Ns IH]; intros f w Hok Hh Htr Hcls.
  - exists f, w. unfold prepare_all, ret. tauto.
  - destruct (Fft_prepareLength_holds T N f w S0 B0 Hok Hh)
      as (f1 & w1 & Hrun & Hh1 & Hok1 & Hthr & Hlen & Hcls1 & Hcase).
    assert (Htr1 : handle_tracks_length T f1)
      by exact (handle_tracks_step T N f f1 w w1 Htr Hlen Hcase).
    rewrite <- Hthr, <- Hlen in Hcls1.
    destruct (IH f1 w1 Hok1 Hh1 Htr1 Hcls1)
      as (f' & w' & Hrun' & Hok' & Hh' & Htr' & Hthr' & Hlen' & Hcls').
    exists f', w'. cbn [prepare_all]. unfold bind. rewrite Hrun.
    split; [exact Hrun' |]. split; [exact Hok' |]. split; [exact Hh' |].
    split; [exact Htr' |]. split; [congruence |].
    split; [| exact Hcls'].
    rewrite Hlen', Hlen. destruct Ns as [| z Ns']; [reflexivity |].
    change (List.last (z :: Ns') N = List.last (z :: Ns') (Fft.length f)).
    apply last_cons_default.
Qed.

Lemma session_holds (T : Kind) (N0 thr : Z) (Ns : list Z) (w0 : World) :
  world_ok w0 ->
  exists f w,
    session T N0 thr Ns w0 = Ok f w
    /\ world_ok w
    /\ holds T f w (setups w0) (blocks w0)
    /\ handle_tracks_length T f
    /\ Fft.stackThresholdLen f = thr
    /\ Fft.length f = List.last Ns N0
    /\ (Fft.work f <> NULL <-> thr < List.last Ns N0).
Proof.
  intros Hok.
  destruct (Fft_prepareLength_holds T N0 (Fft.mk Setup.ctor NULL 0 thr) w0
              (setups w0) (blocks w0) Hok (holds_initial T thr w0))
    as (f1 & w1 & Hrun & Hh1 & Hok1 & Hthr & Hlen & Hcls1 & Hcase).
  assert (Htr1 : handle_tracks_length T f1)
    by exact (handle_tracks_step T N0 _ f1 w0 w1 (handle_tracks_initial T thr) Hlen Hcase).
  cbn [Fft.stackThresholdLen] in Hthr, Hcls1.
  assert (Hcls1' : Fft.work f1 <> NULL <-> Fft.stackThresholdLen f1 < Fft.length f1)
    by (rewrite Hthr, Hlen; exact Hcls1).
  destruct (prepare_all_holds T Ns (setups w0) (blocks w0) f1 w1 Hok1 Hh1 Htr1 Hcls1')
    as (f & w & Hrun' & Hok' & Hh & Htr & Hthr' & Hlen' & Hcls).
  exists f, w. unfold session, Fft.ctor, bind. rewrite Hrun.
  split; [exact Hrun' |]. split; [exact Hok' |]. split; [exact Hh |].
  split; [exact Htr |]. split; [congruence |].
  assert (Hl : Fft.length f = List.last Ns N0) by congruence.
  split; [exact Hl |]. rewrite <- Hl. rewrite Hthr', Hthr in Hcls. exact Hcls.
Qed.

Lemma holds_handle_lookup (T : Kind) (len : Z) (s : Setup.t) (w : World)
    (S0 : gmap Z (ScalarKind * Z * pffft_transform_t)) :
  holds_handle T len s w S0 ->
  Setup.self s <> NULL ->
  setups w !! Setup.self s = Some (Scalar T, len, transform_type T).
Proof.
  unfold holds_handle. intros Hh Hne. apply nonnull_true in Hne. rewrite Hne in Hh.
  destruct Hh as [_ ->]. apply lookup_insert_eq.
Qed.

Lemma holds_scratch_lookup (T : Kind) (len : Z) (p : ptr) (w : World) (B0 : gmap Z Z) :
  holds_scratch T len p w B0 ->
  p <> NULL ->
  blocks w !! p = Some (alloc_bytes T len).
Proof.
  unfold holds_scratch. intros Hh Hne. apply nonnull_true in Hne. rewrite Hne in Hh.
  destruct Hh as [_ ->]. apply lookup_insert_eq.
Qed.

(** What was there before is still there, and the only addition is the
    one key held. *)
Lemma held_frame {A : Type} (m m0 : gmap Z A) (p : Z) (x : A) :
  (if nonnull p then m0 !! p = None /\ m = <[p := x]> m0 else m = m0) ->
  (forall k v, m0 !! k = Some v -> m !! k = Some v)
  /\ (forall k, is_Some (m !! k) -> is_Some (m0 !! k) \/ (k = p /\ p <> NULL)).
Proof.
  destruct (nonnull p) eqn:Hnn.
  - intros [Hnone ->]. apply nonnull_true in Hnn. split.
    + intros k v Hk. rewrite lookup_insert_ne; [exact Hk |].
      intros Heq. rewrite Heq, Hk in Hnone. discriminate.
    + intros k Hk. apply lookup_insert_is_Some' in Hk. destruct Hk as [<- | Hk]; tauto.
  - intros ->. split; [tauto |]. intros k Hk. left. exact Hk.
Qed.

(** X4. Whatever the lengths a facade is constructed with and prepared
    for, every setup and block that was live before is still live and
    unchanged, and the only setup and the only block added are the ones
    the facade holds: nothing of others is touched, nothing is leaked. *)
Theorem Fft_session_frame (T : Kind) (N0 thr : Z) (Ns : list Z) (w0 : World) :
  world_ok w0 ->
  exists f w,
    session T N0 thr Ns w0 = Ok f w
    /\ (forall k v, setups w0 !! k = Some v -> setups w !! k = Some v)
    /\ (forall k, is_Some (setups w !! k) ->
                  is_Some (setups w0 !! k)
                  \/ (k = Setup.self (Fft.setup f) /\ Setup.self (Fft.setup f) <> NULL))
    /\ (forall k v, blocks w0 !! k = Some v -> blocks w !! k = Some v)
    /\ (forall k, is_Some (blocks w !! k) ->
                  is_Some (blocks w0 !! k) \/ (k = Fft.work f /\ Fft.work f <> NULL)).
Proof.
  intros Hok.
  destruct (session_holds T N0 thr Ns w0 Hok) as (f & w & Hrun & _ & [Hh Hs] & _).
  exists f, w. split; [exact Hrun |].
  destruct (held_frame (setups w) (setups w0) (Setup.self (Fft.setup f)) _ Hh) as [H1 H2].
  destruct (held_frame (blocks w) (blocks w0) (Fft.work f) _ Hs) as [H3 H4].
  tauto.
Qed.

(** X3. After the constructor and any sequence of [prepareLength] calls
    ending in a length that is a non-negative [int], no undefined
    behaviour has been reached, the threshold is the one given to the
    constructor, the length is the last one asked for, the scratch
    pointer is non-null exactly above the threshold and then a live block
    of [length * sizeof(T)] bytes ([2 * length] scalars for a complex
    kind, [length] for a real one), and a non-null handle is a live setup
    of exactly that length, of the precision and the transform type of
    [T]. *)
Theorem Fft_session_invariant (T : Kind) (N0 thr : Z) (Ns : list Z) (w0 : World) :
  world_ok w0 ->
  0 <= List.last Ns N0 <= INT_MAX ->
  exists f w,
    session T N0 thr Ns w0 = Ok f w
    /\ Fft.stackThresholdLen f = thr
    /\ Fft.getLength f = List.last Ns N0
    /\ (Fft.work f <> NULL <-> thr < List.last Ns N0)
    /\ (Fft.work f <> NULL ->
        blocks w !! Fft.work f = Some (List.last Ns N0 * sizeof_T T))
    /\ List.last Ns N0 * sizeof_T T
       = (if isComplexTransform T then 2 * List.last Ns N0 else List.last Ns N0)
         * sizeof_Scalar T
    /\ (Setup.self (Fft.setup f) <> NULL ->
        setups w !! Setup.self (Fft.setup f)
        = Some (Scalar T, List.last Ns N0, transform_type T)).
Proof.
  intros Hok HN.
  destruct (session_holds T N0 thr Ns w0 Hok)
    as (f & w & Hrun & _ & [Hh Hs] & _ & Hthr & Hlen & Hcls).
  exists f, w. split; [exact Hrun |]. split; [exact Hthr |].
  split; [exact Hlen |]. split; [exact Hcls |]. split; [| split].
  - intros Hne. rewrite (holds_scratch_lookup _ _ _ _ _ Hs Hne), Hlen.
    f_equal. apply alloc_bytes_int. exact HN.
  - apply sizeof_T_scalars.
  - intros Hne. rewrite <- Hlen. exact (holds_handle_lookup _ _ _ _ _ Hh Hne).
Qed.

(** Destroying a facade gives back exactly what it held. *)
Lemma Fft_dtor_holds (T : Kind) (f : Fft.t) (w : World)
    (S0 : gmap Z (ScalarKind * Z * pffft_transform_t)) (B0 : gmap Z Z) :
  holds T f w S0 B0 ->
  exists w1,
    calls w1 = calls w ++ [call_aligned_free (Scalar T) (Fft.work f);
                           call_destroy_setup (Scalar T) (Setup.self (Fft.setup f))]
    /\ Fft.dtor T f w
       = (if nonnull (Setup.self (Fft.setup f)) || destroy_accepts_null
          then Ok tt w1 else Fault w1)
    /\ (nonnull (Setup.self (Fft.setup f)) || destroy_accepts_null = true ->
        setups w1 = S0)
    /\ blocks w1 = B0.
Proof.
  intros [Hh Hs]. unfold Fft.dtor, Fft.dtor_body, bind. rewrite alignedFree_eq.
  unfold holds_handle in Hh. unfold holds_scratch in Hs.
  (* the scratch buffer *)
  assert (Hfree : exists w2,
             aligned_free (Scalar T) (Fft.work f) w = Ok tt w2
             /\ setups w2 = setups w /\ blocks w2 = B0
             /\ calls w2 = calls w ++ [call_aligned_free (Scalar T) (Fft.work f)]).
  { destruct (nonnull (Fft.work f)) eqn:Hnn.
    - destruct Hs as [Hnone Hblk].
      rewrite (aligned_free_live _ _ (alloc_bytes T (Fft.length f)) _ Hnn)
        by (rewrite Hblk; apply lookup_insert_eq).
      eexists. split; [reflexivity |]. cbn [setups blocks calls].
      rewrite Hblk, (delete_insert_id _ _ _ Hnone). tauto.
    - apply nonnull_false in Hnn. rewrite Hnn, aligned_free_null.
      eexists. split; [reflexivity |]. unfold log. cbn [setups blocks calls]. tauto. }
  destruct Hfree as (w2 & -> & HS2 & HB2 & Hc2).
  unfold Setup.dtor.
  destruct (nonnull (Setup.self (Fft.setup f))) eqn:Hnn.
  - destruct Hh as [Hnone Hset].
    rewrite (destroy_setup_live _ _ _ Hnn)
      by (rewrite HS2, Hset, lookup_insert_eq; eauto).
    eexists. split; [| split; [reflexivity |]]; cbn [setups blocks calls orb].
    + rewrite Hc2, <- app_assoc. reflexivity.
    + split; [| exact HB2]. intros _.
      rewrite HS2, Hset. apply (delete_insert_id _ _ _ Hnone).
  - apply nonnull_false in Hnn. rewrite Hnn, destroy_setup_null. cbn [orb].
    exists (log (call_destroy_setup (Scalar T) NULL) w2).
    split; [unfold log; cbn [calls]; rewrite Hc2, <- app_assoc; reflexivity |].
    split; [destruct destroy_accepts_null; reflexivity |].
    unfold log. cbn [setups blocks]. split; [intros _; congruence | exact HB2].
Qed.

(** X5. A facade that is constructed, prepared for any sequence of
    lengths and destroyed releases everything it acquired: provided the
    destructor of the wrapper may run (the engine's [destroy_setup]
    accepts null, or the last length was positive and accepted by the
    engine), the live setups and the live blocks are those of the start. *)
Theorem Fft_lifetime_no_leak (T : Kind) (N0 thr : Z) (Ns : list Z) (w0 : World) :
  world_ok w0 ->
  destroy_accepts_null = true
  \/ (0 < List.last Ns N0
      /\ valid_length (Scalar T) (transform_type T) (List.last Ns N0) = true) ->
  exists w,
    lifetime T N0 thr Ns w0 = Ok tt w
    /\ setups w = setups w0
    /\ blocks w = blocks w0.
Proof.
  intros Hok Hsafe.
  destruct (session_holds T N0 thr Ns w0 Hok)
    as (f & w & Hrun & _ & Hh & [_ Htr] & _ & Hlen & _).
  destruct (Fft_dtor_holds T f w _ _ Hh) as (w1 & _ & Hd & HS & HB).
  assert (Hgo : nonnull (Setup.self (Fft.setup f)) || destroy_accepts_null = true).
  { destruct Hsafe as [-> | [Hpos Hv]]; [apply orb_true_r |].
    rewrite <- Hlen in Hpos, Hv. specialize (Htr Hpos Hv).
    apply nonnull_true in Htr. rewrite Htr. reflexivity. }
  exists w1. unfold lifetime, bind. rewrite Hrun, Hd, Hgo.
  split; [reflexivity |]. split; [exact (HS Hgo) | exact HB].
Qed.

(** X6. On an engine whose [destroy_setup] does not accept null, a facade
    whose last length the engine did not accept cannot be destroyed: the
    scratch pointer is freed, then the null handle is passed to
    [destroy_setup], which is undefined. *)
Theorem Fft_lifetime_null_destroy (T : Kind) (N0 thr : Z) (Ns : list Z) (w0 : World) :
  world_ok w0 ->
  destroy_accepts_null = false ->
  valid_length (Scalar T) (transform_type T) (List.last Ns N0) = false ->
  exists f w w1,
    session T N0 thr Ns w0 = Ok f w
    /\ lifetime T N0 thr Ns w0 = Fault w1
    /\ calls w1 = calls w ++ [call_aligned_free (Scalar T) (Fft.work f);
                              call_destroy_setup (Scalar T) NULL].
Proof.
  intros Hok Hstrict Hinv.
  destruct (session_holds T N0 thr Ns w0 Hok)
    as (f & w & Hrun & _ & Hh & [Htr _] & _ & Hlen & _).
  destruct (Fft_dtor_holds T f w _ _ Hh) as (w1 & Hc & Hd & _).
  assert (Hnull : Setup.self (Fft.setup f) = NULL).
  { destruct (Z.eq_dec (Setup.self (Fft.setup f)) NULL) as [He | Hne]; [exact He |].
    specialize (Htr Hne). rewrite Hlen in Htr. congruence. }
  rewrite Hnull in Hc, Hd. change (nonnull NULL) with false in Hd.
  rewrite Hstrict in Hd. cbn [orb] in Hd.
  exists f, w, w1. split; [exact Hrun |].
  split; [unfold lifetime, bind; rewrite Hrun; exact Hd | exact Hc].
Qed.

(** X7. With an engine that accepts positive lengths only, after the
    constructor and any sequence of [prepareLength] calls the facade
    holds a handle if and only if the engine accepts its current length
    for the transform type of [T]. *)
Theorem Fft_usable_iff_valid_length (T : Kind) (N0 thr : Z) (Ns : list Z) (w0 : World) :
  (forall lib t n, valid_length lib t n = true -> 0 < n) ->
  world_ok w0 ->
  exists f w,
    session T N0 thr Ns w0 = Ok f w
    /\ (Setup.self (Fft.setup f) <> NULL
        <-> valid_length (Scalar T) (transform_type T) (Fft.getLength f) = true).
Proof.
  intros Heng Hok.
  destruct (session_holds T N0 thr Ns w0 Hok) as (f & w & Hrun & _ & _ & [Htr1 Htr2] & _).
  exists f, w. split; [exact Hrun |]. unfold Fft.getLength.
  split; [exact Htr1 |]. intros Hv. apply Htr2; [| exact Hv].
  exact (Heng _ _ _ Hv).
Qed.

(** *** The raw-pointer operations on a session *)

Lemma run_op_live (T : Kind) (f : Fft.t) (o : Op) (w : World) :
  is_Some (setups w !! Setup.self (Fft.setup f)) ->
  run_op T f o w
  = Ok tt (log (engine_call (Scalar T) (Setup.self (Fft.setup f)) (Fft.work f) o) w).
Proof.
  intros [v Hv].
  destruct o; unfold run_op, engine_call, Fft.forward, Fft.inverse,
    Fft.forwardToInternalLayout, Fft.inverseFromInternalLayout, Fft.reorderSpectrum,
    Fft.convolve, Setup.transform_ordered, Setup.transform, Setup.reorder,
    Setup.convolve, with_setup, bind, ret; rewrite Hv; reflexivity.
Qed.

Lemma run_op_dead (T : Kind) (f : Fft.t) (o : Op) (w : World) :
  setups w !! Setup.self (Fft.setup f) = None ->
  run_op T f o w
  = Fault (log (engine_call (Scalar T) (Setup.self (Fft.setup f)) (Fft.work f) o) w).
Proof.
  intros Hv.
  destruct o; unfold run_op, engine_call, Fft.forward, Fft.inverse,
    Fft.forwardToInternalLayout, Fft.inverseFromInternalLayout, Fft.reorderSpectrum,
    Fft.convolve, Setup.transform_ordered, Setup.transform, Setup.reorder,
    Setup.convolve, with_setup, bind, ret; rewrite Hv; reflexivity.
Qed.

(** X8. Once a facade has been prepared for a positive length the engine
    accepts, a forward, inverse, internal-layout, reorder or convolve
    call is exactly one engine call: on the facade's handle, a live setup
    of the current length, with the facade's scratch pointer, null
    exactly when the length is within the threshold and otherwise a live
    block of [length * sizeof(T)] bytes, and with the caller's pointers
    passed on as they are; no setup or block is created or released.
    (Whether the caller's buffers meet the engine's contract is not part
    of the statement.) *)
Theorem Fft_operation_engine_call
    (T : Kind) (N0 thr : Z) (Ns : list Z) (o : Op) (w0 : World) :
  world_ok w0 ->
  0 < List.last Ns N0 <= INT_MAX ->
  valid_length (Scalar T) (transform_type T) (List.last Ns N0) = true ->
  exists f w,
    session T N0 thr Ns w0 = Ok f w
    /\ setups w !! Setup.self (Fft.setup f)
       = Some (Scalar T, List.last Ns N0, transform_type T)
    /\ (Fft.work f = NULL <-> List.last Ns N0 <= thr)
    /\ (Fft.work f <> NULL ->
        blocks w !! Fft.work f = Some (List.last Ns N0 * sizeof_T T))
    /\ calls (world_of (run_op T f o w))
       = calls w ++ [engine_call (Scalar T) (Setup.self (Fft.setup f)) (Fft.work f) o]
    /\ setups (world_of (run_op T f o w)) = setups w
    /\ blocks (world_of (run_op T f o w)) = blocks w.
Proof.
  intros Hok HN Hv.
  destruct (session_holds T N0 thr Ns w0 Hok)
    as (f & w & Hrun & _ & [Hh Hs] & [_ Htr] & _ & Hlen & Hcls).
  assert (Hne : Setup.self (Fft.setup f) <> NULL)
    by (apply Htr; rewrite Hlen; [lia | exact Hv]).
  pose proof (holds_handle_lookup _ _ _ _ _ Hh Hne) as Hlive.
  exists f, w. split; [exact Hrun |]. split; [rewrite <- Hlen; exact Hlive |].
  split.
  { destruct (Z.eq_dec (Fft.work f) NULL) as [He | Hn].
    - split; [intros _ | intros _; exact He].
      destruct (Z_lt_le_dec thr (List.last Ns N0)) as [Hlt | Hle]; [| exact Hle].
      apply Hcls in Hlt. contradiction.
    - split; [intros He; contradiction |]. intros Hle. apply Hcls in Hn. lia. }
  split.
  { intros Hn. rewrite (holds_scratch_lookup _ _ _ _ _ Hs Hn), Hlen.
    f_equal. apply alloc_bytes_int. lia. }
  rewrite (run_op_live T f o w) by (rewrite Hlive; eauto).
  unfold world_of, log. cbn [calls setups blocks]. tauto.
Qed.

(** X9. The facade never checks that the engine gave it a setup: after
    preparing for a length the engine does not accept, each forward,
    inverse, internal-layout, reorder or convolve call passes the null
    handle to the engine, which is undefined. *)
Theorem Fft_operation_on_rejected_length
    (T : Kind) (N0 thr : Z) (Ns : list Z) (o : Op) (w0 : World) :
  world_ok w0 ->
  valid_length (Scalar T) (transform_type T) (List.last Ns N0) = false ->
  exists f w,
    session T N0 thr Ns w0 = Ok f w
    /\ Setup.self (Fft.setup f) = NULL
    /\ run_op T f o w = Fault (log (engine_call (Scalar T) NULL (Fft.work f) o) w).
Proof.
  intros Hok Hinv.
  destruct (session_holds T N0 thr Ns w0 Hok)
    as (f & w & Hrun & [HbS _] & _ & [Htr _] & _ & Hlen & _).
  assert (Hnull : Setup.self (Fft.setup f) = NULL).
  { destruct (Z.eq_dec (Setup.self (Fft.setup f)) NULL) as [He | Hne]; [exact He |].
    specialize (Htr Hne). rewrite Hlen in Htr. congruence. }
  exists f, w. split; [exact Hrun |]. split; [exact Hnull |].
  rewrite <- Hnull. apply run_op_dead. rewrite Hnull. exact (below_null _ _ HbS).
Qed.

End Lifetime.

(** ** The wrapper, the allocation helpers and the allocator *)

Section Wrapper.
Context `{EngineModel}.

(** X1. [Setup<T>::prepareLength(N)], for every kind and every [N], on a
    wrapper that is empty or holds a live setup: the setup held before is
    no longer live; the wrapper holds a handle afterwards if and only if
    [new_setup] was reached ([N > 0] for [Setup<double>], always for the
    others) and the engine accepted [N]; that handle is a live setup of
    length [N], of the precision and the transform type of [T]; every
    other setup and every block is as before. *)
Theorem Setup_prepareLength_replaces_handle
    (T : Kind) (len N : Z) (s : Setup.t) (w : World) :
  world_ok w ->
  Setup.self s = NULL
  \/ setups w !! Setup.self s = Some (Scalar T, len, transform_type T) ->
  exists s' w',
    Setup.prepareLength T N s w = Ok s' w'
    /\ (Setup.self s <> NULL -> setups w' !! Setup.self s = None)
    /\ (Setup.self s' <> NULL
        <-> creates T N && valid_length (Scalar T) (transform_type T) N = true)
    /\ (Setup.self s' <> NULL ->
        setups w' !! Setup.self s' = Some (Scalar T, N, transform_type T))
    /\ (forall k, k <> Setup.self s -> k <> Setup.self s' ->
                  setups w' !! k = setups w !! k)
    /\ blocks w' = blocks w.
Proof.
  intros Hok Hheld.
  assert (Hh : holds_handle T len s w (delete (Setup.self s) (setups w))).
  { unfold holds_handle. destruct (nonnull (Setup.self s)) eqn:Hnn.
    - destruct Hheld as [Hnull | Hlive]; [apply nonnull_true in Hnn; contradiction |].
      split; [apply lookup_delete_eq | symmetry; apply insert_delete_id; exact Hlive].
    - symmetry. apply delete_id. apply nonnull_false in Hnn. rewrite Hnn.
      exact (below_null _ _ (proj1 Hok)). }
  destruct (Setup_prepareLength_holds T len N s w _ Hok Hh)
    as (s' & w' & Hrun & Hh' & HB & Hok' & Hself).
  exists s', w'. split; [exact Hrun |].
  assert (Hfresh : Setup.self s' <> NULL -> Setup.self s' = Z.pos (brk w)).
  { intros Hne. rewrite Hself in *.
    destruct (creates T N && valid_length (Scalar T) (transform_type T) N);
      [reflexivity | contradiction]. }
  assert (Hold : Setup.self s <> NULL -> Setup.self s <> Z.pos (brk w)).
  { intros Hne Heq. destruct Hheld as [Hnull | Hlive]; [contradiction |].
    assert (Hk : 0 < Setup.self s < Z.pos (brk w))
      by (apply (proj1 Hok); eexists; exact Hlive).
    lia. }
  unfold holds_handle in Hh'.
  split.
  { intros Hne. destruct (nonnull (Setup.self s')) eqn:Hnn'.
    - destruct Hh' as [_ ->]. apply nonnull_true in Hnn'.
      rewrite lookup_insert_ne; [apply lookup_delete_eq |].
      rewrite (Hfresh Hnn'). intros Heq. exact (Hold Hne (eq_sym Heq)).
    - rewrite Hh'. apply lookup_delete_eq. }
  split.
  { rewrite Hself.
    destruct (creates T N && valid_length (Scalar T) (transform_type T) N);
      split; try discriminate; try reflexivity. intros Hne. contradiction. }
  split; [exact (holds_handle_lookup _ _ _ _ _ Hh') |].
  split; [| exact HB].
  intros k Hk Hk'. destruct (nonnull (Setup.self s')).
  - destruct Hh' as [_ ->]. rewrite lookup_insert_ne by congruence.
    apply lookup_delete_ne. congruence.
  - rewrite Hh'. apply lookup_delete_ne. congruence.
Qed.

(** X2. The engine calls of [Setup<T>::prepareLength(N)]: a
    [destroy_setup] of the handle held, if any, then, for [N > 0] in
    every kind, one [new_setup] of length [N] in the library and with the
    transform type that the facade's [isFloatScalar()] and
    [isComplexTransform()] report for [T]; nothing else. *)
Theorem Setup_prepareLength_engine_calls (T : Kind) (N : Z) (s : Setup.t) (w : World) :
  0 < N ->
  handle_ok s w ->
  exists s' w',
    Setup.prepareLength T N s w = Ok s' w'
    /\ calls w' = calls w ++
         (if nonnull (Setup.self s)
          then [call_destroy_setup (if isFloatScalar T then ScalarFloat else ScalarDouble)
                  (Setup.self s)]
          else []) ++
         [call_new_setup (if isFloatScalar T then ScalarFloat else ScalarDouble) N
            (if isComplexTransform T then PFFFT_COMPLEX else PFFFT_REAL)
            (Setup.self s')]
    /\ isDoubleScalar T = negb (isFloatScalar T).
Proof.
  intros HN Hok.
  destruct (Setup_prepareLength_positive T N s w HN Hok) as (s' & w' & Hrun & _ & Hc).
  exists s', w'. split; [exact Hrun |]. split; [| destruct T; reflexivity].
  rewrite Hc. destruct T; reflexivity.
Qed.


(** X11. [PFAlloc<T>::allocate(num)] passes [num] through the [int]
    parameter of [Types<T>::alignedAlloc]: for [k] within [int] a request
    of [k] elements gets [k * sizeof(T)] bytes, and a request of
    [2^32 + k] elements, which is within [max_size()], gets no more. *)
Theorem PFAlloc_allocate_through_int (T : Kind) (k : Z) (w : World) :
  0 <= k <= INT_MAX ->
  allocated_bytes (PFAlloc.allocate T k) w = Some (k * sizeof_T T)
  /\ 2 ^ 32 + k <= PFAlloc.max_size T
  /\ allocated_bytes (PFAlloc.allocate T (2 ^ 32 + k)) w = Some (k * sizeof_T T).
Proof.
  unfold INT_MAX. intros Hk.
  assert (H1 : int_of_size_t k = k).
  { unfold int_of_size_t. rewrite Z.mod_small by lia. lia. }
  assert (H2 : int_of_size_t (2 ^ 32 + k) = k).
  { unfold int_of_size_t.
    replace (2 ^ 32 + k + 2 ^ 31) with (k + 2 ^ 31 + 1 * 2 ^ 32) by lia.
    rewrite Z.mod_add by lia. rewrite Z.mod_small by lia. lia. }
  unfold allocated_bytes, PFAlloc.allocate. rewrite H1, H2, alignedAlloc_eq.
  cbn [blocks]. rewrite lookup_insert_eq.
  rewrite alloc_bytes_int by (unfold INT_MAX; exact Hk).
  split; [reflexivity |]. split; [| reflexivity].
  unfold PFAlloc.max_size, SIZE_MAX. destruct T; cbn [sizeof_T sizeof_scalar];
    apply Z.div_le_lower_bound; lia.
Qed.

(** X12. For a count [num] within [int], [PFAlloc<T>::allocate(num)]
    asks the engine for [num * sizeof(T)] bytes; the block it returns is
    released by [PFAlloc<T>::deallocate], whatever count is passed,
    through the free function of the library that allocated it, and the
    live blocks are then those of before.  A second [deallocate] of it is
    undefined. *)
Theorem PFAlloc_allocate_deallocate (T : Kind) (num n1 n2 : Z) (w : World) :
  world_ok w ->
  0 <= num <= INT_MAX ->
  exists p w1 w2 w3,
    PFAlloc.allocate T num w = Ok p w1
    /\ blocks w1 !! p = Some (num * sizeof_T T)
    /\ PFAlloc.deallocate T p n1 w1 = Ok tt w2
    /\ blocks w2 = blocks w
    /\ setups w2 = setups w
    /\ calls w2 = calls w ++
         [call_aligned_malloc (Scalar T) (num * sizeof_T T) p;
          call_aligned_free (Scalar T) p]
    /\ PFAlloc.deallocate T p n2 w2 = Fault w3.
Proof.
  intros [_ HbB] Hnum. unfold PFAlloc.allocate, PFAlloc.deallocate.
  assert (Hint : int_of_size_t num = num).
  { unfold INT_MAX in Hnum. unfold int_of_size_t. rewrite Z.mod_small by lia. lia. }
  rewrite Hint, alignedAlloc_eq, (alloc_bytes_int T num Hnum).
  eexists _, _, _, _. split; [reflexivity |].
  split; [cbn [blocks]; apply lookup_insert_eq |].
  rewrite !alignedFree_eq.
  rewrite (aligned_free_live _ _ (num * sizeof_T T))
    by (try reflexivity; cbn [blocks]; apply lookup_insert_eq).
  split; [reflexivity |]. cbn [blocks setups calls brk].
  rewrite (delete_insert_id _ _ _ (below_fresh _ _ HbB)).
  split; [reflexivity |]. split; [reflexivity |].
  split; [rewrite <- app_assoc; reflexivity |].
  unfold aligned_free. cbn [blocks nonnull].
  change (nonnull (Z.pos (brk w))) with true. cbv iota. unfold ptr.
  rewrite (below_fresh _ _ HbB). reflexivity.
Qed.

End Wrapper.

(** ** Instances of the further properties *)

Lemma world_ok_empty : world_ok empty_world.
Proof.
  split; intros k [v Hv]; cbn in Hv; rewrite lookup_empty in Hv; discriminate.
Qed.

Lemma lenient_engine_positive (lib : ScalarKind) (t : pffft_transform_t) (n : Z) :
  @valid_length lenient_engine lib t n = true -> 0 < n.
Proof.
  cbn. intros Hv. apply andb_true_iff in Hv. destruct Hv as [Hpos _].
  now apply Z.ltb_lt.
Qed.

Lemma Setup_prepareLength_replaces_handle_witness :
  world_ok empty_world
  /\ (Setup.self Setup.ctor = NULL
      \/ setups empty_world !! Setup.self Setup.ctor
         = Some (Scalar Float, 0, transform_type Float))
  /\ exists s' w',
       @Setup.prepareLength lenient_engine Float 64 Setup.ctor empty_world = Ok s' w'
       /\ (Setup.self Setup.ctor <> NULL -> setups w' !! Setup.self Setup.ctor = None)
       /\ (Setup.self s' <> NULL
           <-> creates Float 64
               && @valid_length lenient_engine (Scalar Float) (transform_type Float) 64
               = true)
       /\ (Setup.self s' <> NULL ->
           setups w' !! Setup.self s' = Some (Scalar Float, 64, transform_type Float))
       /\ (forall k, k <> Setup.self Setup.ctor -> k <> Setup.self s' ->
                     setups w' !! k = setups empty_world !! k)
       /\ blocks w' = blocks empty_world.
Proof.
  split; [exact world_ok_empty |]. split; [left; reflexivity |].
  apply (@Setup_prepareLength_replaces_handle lenient_engine Float 0 64
           Setup.ctor empty_world world_ok_empty).
  left. reflexivity.
Defined.

Lemma Setup_prepareLength_engine_calls_witness :
  0 < 64
  /\ handle_ok Setup.ctor empty_world
  /\ exists s' w',
       @Setup.prepareLength lenient_engine ComplexDouble 64 Setup.ctor empty_world
       = Ok s' w'
       /\ calls w' = calls empty_world ++
            (if nonnull (Setup.self Setup.ctor)
             then [call_destroy_setup
                     (if isFloatScalar ComplexDouble then ScalarFloat else ScalarDouble)
                     (Setup.self Setup.ctor)]
             else []) ++
            [call_new_setup
               (if isFloatScalar ComplexDouble then ScalarFloat else ScalarDouble) 64
               (if isComplexTransform ComplexDouble then PFFFT_COMPLEX else PFFFT_REAL)
               (Setup.self s')]
       /\ isDoubleScalar ComplexDouble = negb (isFloatScalar ComplexDouble).
Proof.
  split; [lia |]. split; [left; reflexivity |].
  apply (@Setup_prepareLength_engine_calls lenient_engine ComplexDouble 64
           Setup.ctor empty_world); [lia | left; reflexivity].
Defined.

Lemma Fft_session_invariant_witness :
  world_ok empty_world
  /\ 0 <= List.last [96; 8192] 64 <= INT_MAX
  /\ exists f w,
       @session lenient_engine ComplexFloat 64 4096 [96; 8192] empty_world = Ok f w
       /\ Fft.stackThresholdLen f = 4096
       /\ Fft.getLength f = List.last [96; 8192] 64
       /\ (Fft.work f <> NULL <-> 4096 < List.last [96; 8192] 64)
       /\ (Fft.work f <> NULL ->
           blocks w !! Fft.work f
           = Some (List.last [96; 8192] 64 * sizeof_T ComplexFloat))
       /\ List.last [96; 8192] 64 * sizeof_T ComplexFloat
          = (if isComplexTransform ComplexFloat
             then 2 * List.last [96; 8192] 64 else List.last [96; 8192] 64)
            * sizeof_Scalar ComplexFloat
       /\ (Setup.self (Fft.setup f) <> NULL ->
           setups w !! Setup.self (Fft.setup f)
           = Some (Scalar ComplexFloat, List.last [96; 8192] 64,
                   transform_type ComplexFloat)).
Proof.
  assert (HN : 0 <= List.last [96; 8192] 64 <= INT_MAX)
    by (unfold INT_MAX; cbn; lia).
  split; [exact world_ok_empty |]. split; [exact HN |].
  apply (@Fft_session_invariant lenient_engine ComplexFloat 64 4096 [96; 8192]
           empty_world world_ok_empty HN).
Defined.

Lemma Fft_session_frame_witness :
  world_ok empty_world
  /\ exists f w,
       @session lenient_engine Float 64 4096 [8192; 96] empty_world = Ok f w
       /\ (forall k v, setups empty_world !! k = Some v -> setups w !! k = Some v)
       /\ (forall k, is_Some (setups w !! k) ->
                     is_Some (setups empty_world !! k)
                     \/ (k = Setup.self (Fft.setup f)
                         /\ Setup.self (Fft.setup f) <> NULL))
       /\ (forall k v, blocks empty_world !! k = Some v -> blocks w !! k = Some v)
       /\ (forall k, is_Some (blocks w !! k) ->
                     is_Some (blocks empty_world !! k)
                     \/ (k = Fft.work f /\ Fft.work f <> NULL)).
Proof.
  split; [exact world_ok_empty |].
  apply (@Fft_session_frame lenient_engine Float 64 4096 [8192; 96]
           empty_world world_ok_empty).
Defined.

Lemma Fft_lifetime_no_leak_witness :
  world_ok empty_world
  /\ (@destroy_accepts_null strict_engine = true
      \/ (0 < List.last [8192; 96] 64
          /\ @valid_length strict_engine (Scalar Float) (transform_type Float)
               (List.last [8192; 96] 64) = true))
  /\ exists w,
       @lifetime strict_engine Float 64 4096 [8192; 96] empty_world = Ok tt w
       /\ setups w = setups empty_world
       /\ blocks w = blocks empty_world.
Proof.
  assert (Hsafe : @destroy_accepts_null strict_engine = true
                  \/ (0 < List.last [8192; 96] 64
                      /\ @valid_length strict_engine (Scalar Float) (transform_type Float)
                           (List.last [8192; 96] 64) = true)).
  { right. split; [cbn; lia | reflexivity]. }
  split; [exact world_ok_empty |]. split; [exact Hsafe |].
  apply (@Fft_lifetime_no_leak strict_engine Float 64 4096 [8192; 96]
           empty_world world_ok_empty Hsafe).
Defined.

Lemma Fft_lifetime_null_destroy_witness :
  world_ok empty_world
  /\ @destroy_accepts_null strict_engine = false
  /\ @valid_length strict_engine (Scalar Float) (transform_type Float)
       (List.last [100] 64) = false
  /\ exists f w w1,
       @session strict_engine Float 64 4096 [100] empty_world = Ok f w
       /\ @lifetime strict_engine Float 64 4096 [100] empty_world = Fault w1
       /\ calls w1 = calls w ++ [call_aligned_free (Scalar Float) (Fft.work f);
                                 call_destroy_setup (Scalar Float) NULL].
Proof.
  split; [exact world_ok_empty |]. split; [reflexivity |]. split; [reflexivity |].
  apply (@Fft_lifetime_null_destroy strict_engine Float 64 4096 [100]
           empty_world world_ok_empty); reflexivity.
Defined.

Lemma Fft_usable_iff_valid_length_witness :
  (forall lib t n, @valid_length lenient_engine lib t n = true -> 0 < n)
  /\ world_ok empty_world
  /\ exists f w,
       @session lenient_engine ComplexFloat 64 4096 [100; 48] empty_world = Ok f w
       /\ (Setup.self (Fft.setup f) <> NULL
           <-> @valid_length lenient_engine (Scalar ComplexFloat)
                 (transform_type ComplexFloat) (Fft.getLength f) = true).
Proof.
  split; [exact lenient_engine_positive |]. split; [exact world_ok_empty |].
  apply (@Fft_usable_iff_valid_length lenient_engine ComplexFloat 64 4096 [100; 48]
           empty_world lenient_engine_positive world_ok_empty).
Defined.

Lemma Fft_operation_engine_call_witness :
  world_ok empty_world
  /\ 0 < List.last [8192] 64 <= INT_MAX
  /\ @valid_length lenient_engine (Scalar Float) (transform_type Float)
       (List.last [8192] 64) = true
  /\ exists f w,
       @session lenient_engine Float 64 4096 [8192] empty_world = Ok f w
       /\ setups w !! Setup.self (Fft.setup f)
          = Some (Scalar Float, List.last [8192] 64, transform_type Float)
       /\ (Fft.work f = NULL <-> List.last [8192] 64 <= 4096)
       /\ (Fft.work f <> NULL ->
           blocks w !! Fft.work f = Some (List.last [8192] 64 * sizeof_T Float))
       /\ calls (world_of (run_op Float f (op_forward 100 200) w))
          = calls w ++
            [engine_call (Scalar Float) (Setup.self (Fft.setup f)) (Fft.work f)
               (op_forward 100 200)]
       /\ setups (world_of (run_op Float f (op_forward 100 200) w)) = setups w
       /\ blocks (world_of (run_op Float f (op_forward 100 200) w)) = blocks w.
Proof.
  assert (HN : 0 < List.last [8192] 64 <= INT_MAX) by (unfold INT_MAX; cbn; lia).
  split; [exact world_ok_empty |]. split; [exact HN |]. split; [reflexivity |].
  apply (@Fft_operation_engine_call lenient_engine Float 64 4096 [8192]
           (op_forward 100 200) empty_world world_ok_empty HN).
  reflexivity.
Defined.

Lemma Fft_operation_on_rejected_length_witness :
  world_ok empty_world
  /\ @valid_length lenient_engine (Scalar Float) (transform_type Float)
       (List.last [100] 64) = false
  /\ exists f w,
       @session lenient_engine Float 64 4096 [100] empty_world = Ok f w
       /\ Setup.self (Fft.setup f) = NULL
       /\ run_op Float f (op_forward 100 200) w
          = Fault (log (engine_call (Scalar Float) NULL (Fft.work f) (op_forward 100 200)) w).
Proof.
  split; [exact world_ok_empty |]. split; [reflexivity |].
  apply (@Fft_operation_on_rejected_length lenient_engine Float 64 4096 [100]
           (op_forward 100 200) empty_world world_ok_empty).
  reflexivity.
Defined.


Lemma PFAlloc_allocate_through_int_witness :
  0 <= 5 <= INT_MAX
  /\ allocated_bytes (PFAlloc.allocate Float 5) empty_world = Some (5 * sizeof_T Float)
  /\ 2 ^ 32 + 5 <= PFAlloc.max_size Float
  /\ allocated_bytes (PFAlloc.allocate Float (2 ^ 32 + 5)) empty_world
     = Some (5 * sizeof_T Float).
Proof.
  split; [unfold INT_MAX; lia |].
  apply (PFAlloc_allocate_through_int Float 5 empty_world). unfold INT_MAX. lia.
Defined.

Lemma PFAlloc_allocate_deallocate_witness :
  world_ok empty_world
  /\ 0 <= 16 <= INT_MAX
  /\ exists p w1 w2 w3,
       PFAlloc.allocate Float 16 empty_world = Ok p w1
       /\ blocks w1 !! p = Some (16 * sizeof_T Float)
       /\ PFAlloc.deallocate Float p 16 w1 = Ok tt w2
       /\ blocks w2 = blocks empty_world
       /\ setups w2 = setups empty_world
       /\ calls w2 = calls empty_world ++
            [call_aligned_malloc (Scalar Float) (16 * sizeof_T Float) p;
             call_aligned_free (Scalar Float) p]
       /\ PFAlloc.deallocate Float p 16 w2 = Fault w3.
Proof.
  assert (Hnum : 0 <= 16 <= INT_MAX) by (unfold INT_MAX; lia).
  split; [exact world_ok_empty |]. split; [exact Hnum |].
  apply (PFAlloc_allocate_deallocate Float 16 16 16 empty_world world_ok_empty Hnum).
Defined.
